(** * wsbfinder: the realtime chat core

    A shallow embedding of the two-party chat of the wsbfinder application:
    the Socket.IO relay of [server.js] (presence map, room fan-out) and the
    client logic of the chat page (room identifier, optimistic send,
    live-relay merge, unread boundary).

    JavaScript strings are modelled as [string]; a character stands for one
    code unit and strings are ordered code unit by code unit, as the default
    comparison of [Array.prototype.sort] orders them. *)

From Stdlib Require Import ZArith Strings.String Strings.Ascii Numbers.DecimalString.
From stdpp Require Import base option list strings gmap.

Local Open Scope string_scope.
Local Open Scope list_scope.
Local Open Scope Z_scope.

(** * Part I: the program *)

(** ** Room identity ([createRoomId], chat page) *)

Module RoomIdentity.

(** The default sort order of [Array.prototype.sort]: [x] goes before [y]
    when [x < y] as strings. *)
Definition sortBefore (x y : string) : bool := String.ltb x y.

(** [Array.prototype.sort] without a comparator, as a stable insertion
    sort. *)
Fixpoint insert (x : string) (l : list string) : list string :=
  match l with
  | [] => [x]
  | y :: l' => if sortBefore y x then y :: insert x l' else x :: y :: l'
  end.

Definition sort (l : list string) : list string := foldr insert [] l.

(** [Array.prototype.join]. *)
Fixpoint join (sep : string) (l : list string) : string :=
  match l with
  | [] => ""
  | [x] => x
  | x :: l' => x +:+ sep +:+ join sep l'
  end.

(** The fixed delimiter. *)
Definition delimiter : string := "--".

(** [[String(userId1), String(userId2)].sort().join("--")]; [String] is
    the identity on a string. *)
Definition createRoomId (userId1 userId2 : string) : string :=
  join delimiter (sort [userId1; userId2]).

(** The delimiter constraint: no character of the delimiter occurs in the
    identifier. *)
Definition delimiter_freeb (s : string) : bool :=
  forallb
    (λ ch, negb (existsb (Ascii.eqb ch) (list_ascii_of_string delimiter)))
    (list_ascii_of_string s).

Definition delimiter_free (s : string) : Prop := delimiter_freeb s = true.

End RoomIdentity.

(** ** JavaScript values

    The payload of a Socket.IO event is whatever the peer sent: the handlers
    of [server.js] receive it unchecked. What arrives is JSON: no
    function, no [NaN]. Numbers are the integral ones (the handlers only
    test a number for zero, compare it and print it); an object or an
    array carries the identity of its allocation, which is what [===] and
    the keys of a [Map] compare. *)

Module JS.

#[warnings="-register-all"] Inductive Value : Type :=
| Undefined
| Null
| Bool (b : bool)
| Num (n : Z)
| Str (s : string)
| Obj (ref : positive) (props : list (string * Value))
| Arr (ref : positive) (items : list Value).

(** [ToBoolean]: what [if (v)] tests. *)
Definition truthy (v : Value) : bool :=
  match v with
  | Undefined | Null => false
  | Bool b => b
  | Num n => negb (n =? 0)
  | Str s => negb (String.eqb s "")
  | Obj _ _ | Arr _ _ => true
  end.

(** [x === y]; on these values it is also the key equality of a [Map]. *)
Definition strict_eq (x y : Value) : bool :=
  match x, y with
  | Undefined, Undefined => true
  | Null, Null => true
  | Bool a, Bool b => Bool.eqb a b
  | Num a, Num b => a =? b
  | Str a, Str b => String.eqb a b
  | Obj r _, Obj r' _ => Pos.eqb r r'
  | Arr r _, Arr r' _ => Pos.eqb r r'
  | _, _ => false
  end.

Fixpoint own_property (name : string) (props : list (string * Value))
  : option Value :=
  match props with
  | [] => None
  | (k, v) :: rest => if String.eqb k name then Some v else own_property name rest
  end.

(** The outcome of running a handler: it returns, or it throws. *)
Inductive Outcome (A : Type) : Type :=
| Returned (a : A)
| Threw (error : string).
Arguments Returned {A} a.
Arguments Threw {A} error.

(** Reading the property [name] of [v], for a name that no built-in
    prototype defines: a [TypeError] on [undefined] and [null],
    [undefined] where the property is missing. *)
Definition get_property (name : string) (v : Value) : Outcome Value :=
  match v with
  | Undefined | Null => Threw "TypeError"
  | Obj _ props => Returned (default Undefined (own_property name props))
  | Bool _ | Num _ | Str _ | Arr _ _ => Returned Undefined
  end.

(** Whether a template literal can interpolate [v], that is whether
    [ToString(v)] returns. A value that came over the wire holds no
    function: an object with an own [toString] property has nothing to
    call ([Object.prototype.valueOf] gives the object back), and the
    conversion throws a [TypeError]; an array is joined, which converts
    each element other than [undefined] and [null] in turn. *)
Fixpoint printable (v : Value) : bool :=
  match v with
  | Obj _ props =>
      match own_property "toString" props with Some _ => false | None => true end
  | Arr _ items => forallb printable items
  | Undefined | Null | Bool _ | Num _ | Str _ => true
  end.

(** [Array.isArray(v)] *)
Definition is_array (v : Value) : bool :=
  match v with Arr _ _ => true | _ => false end.

(** What identifies a value under [===]. *)
Inductive Identity : Type :=
| IUndefined | INull | IBool (b : bool) | INum (n : Z) | IStr (s : string)
| IRef (ref : positive) | IArr (ref : positive).

Definition identity (v : Value) : Identity :=
  match v with
  | Undefined => IUndefined
  | Null => INull
  | Bool b => IBool b
  | Num n => INum n
  | Str s => IStr s
  | Obj r _ => IRef r
  | Arr r _ => IArr r
  end.

End JS.

(** ** The JavaScript [Map]

    A [Map] iterates in insertion order and the disconnect handler stops at
    the first match, so the map is the sequence of its entries. *)

Module JsMap.
Section WithValues.
Context {V : Type}.

Definition t : Type := list (JS.Value * V).

(** [new Map()] *)
Definition empty : t := [].

(** [m.get(k)] *)
Fixpoint get (k : JS.Value) (m : t) : option V :=
  match m with
  | [] => None
  | (k', v) :: rest => if JS.strict_eq k' k then Some v else get k rest
  end.

(** [m.set(k, v)]: an existing key keeps its place, a new one goes
    last. *)
Fixpoint set (k : JS.Value) (v : V) (m : t) : t :=
  match m with
  | [] => [(k, v)]
  | (k', v') :: rest =>
      if JS.strict_eq k' k then (k', v) :: rest else (k', v') :: set k v rest
  end.

(** [m.delete(k)] *)
Fixpoint delete (k : JS.Value) (m : t) : t :=
  match m with
  | [] => []
  | (k', v') :: rest =>
      if JS.strict_eq k' k then rest else (k', v') :: delete k rest
  end.

(** [m.entries()], in iteration order. *)
Definition entries (m : t) : list (JS.Value * V) := m.

(** No key occurs twice: what [set] maintains from [empty]. *)
Fixpoint keys_unique (m : t) : Prop :=
  match m with
  | [] => True
  | (k, _) :: rest => get k rest = None ∧ keys_unique rest
  end.
End WithValues.
Arguments t V : clear implicits.
End JsMap.

(** ** The relay ([server.js]) *)

Module Server.
Import JS.

(** [socket.id] *)
Definition SocketId : Type := string.

(** The object literal [{ text, roomId, senderId }]. *)
Record RelayedMessage : Type := {
  text : Value;
  roomId : Value;
  senderId : Value;
}.

(** One event put on the wire towards one connection. *)
Record Delivery : Type := {
  recipient : SocketId;
  event : string;
  payload : RelayedMessage;
}.

(** The state of the process: [userSocketMap], and what Socket.IO keeps
    for it: the live sockets and the (socket, room) memberships. *)
Record State : Type := {
  userSocketMap : JsMap.t SocketId;
  sockets : list SocketId;
  rooms : list (SocketId * Value);
}.

Definition initial : State :=
  {| userSocketMap := JsMap.empty; sockets := []; rooms := [] |}.

(** *** Socket.IO rooms, as the library documents them *)

Definition in_room (sock : SocketId) (room : Value) (rs : list (SocketId * Value)) : bool :=
  existsb (λ '(s, r), String.eqb s sock && strict_eq r room) rs.

(** Joining one room. *)
Definition join (sock : SocketId) (room : Value) (rs : list (SocketId * Value))
  : list (SocketId * Value) :=
  if in_room sock room rs then rs else rs ++ [(sock, room)].

(** The rooms that the argument of [socket.join] and of [socket.to]
    names: an array is a list of rooms, anything else is one room. *)
Definition rooms_of (room : Value) : list Value :=
  match room with
  | Arr _ items => items
  | _ => [room]
  end.

(** [socket.join(room)] *)
Definition join_each (sock : SocketId) (room : Value) (rs : list (SocketId * Value))
  : list (SocketId * Value) :=
  foldl (λ acc r, join sock r acc) rs (rooms_of room).

(** [socket.leave(room)]: one room, whatever the argument is. *)
Definition leave (sock : SocketId) (room : Value) (rs : list (SocketId * Value))
  : list (SocketId * Value) :=
  List.filter (λ '(s, r), negb (String.eqb s sock && strict_eq r room)) rs.

(** A closed socket leaves every room. *)
Definition leave_all (sock : SocketId) (rs : list (SocketId * Value))
  : list (SocketId * Value) :=
  List.filter (λ '(s, _), negb (String.eqb s sock)) rs.

(** The sockets in [room]. *)
Definition membersOf (room : Value) (rs : list (SocketId * Value)) : list SocketId :=
  (List.filter (λ '(_, r), strict_eq r room) rs).*1.

(** Each socket once, at its first place: a broadcast skips the sockets
    it has served. *)
Fixpoint dedupe (l : list SocketId) : list SocketId :=
  match l with
  | [] => []
  | c :: rest => c :: List.filter (λ c', negb (String.eqb c' c)) (dedupe rest)
  end.

(** [socket.to(room).emit(ev, msg)] for an argument that names a room:
    to the sockets in the rooms named, each once, the emitting socket
    excluded. *)
Definition to_emit (sock : SocketId) (room : Value) (ev : string)
    (msg : RelayedMessage) (rs : list (SocketId * Value)) : list Delivery :=
  (λ c, {| recipient := c; event := ev; payload := msg |}) <$>
    List.filter (λ c, negb (String.eqb c sock))
      (dedupe (concat ((λ r, membersOf r rs) <$> rooms_of room))).

(** A broadcast that names no room goes to every live socket, the
    emitting socket excluded. *)
Definition broadcast_emit (sock : SocketId) (ev : string) (msg : RelayedMessage)
    (live : list SocketId) : list Delivery :=
  (λ c, {| recipient := c; event := ev; payload := msg |}) <$>
    List.filter (λ c, negb (String.eqb c sock)) live.

(** [socket.to(room).emit(ev, msg)]: an empty array names no room. *)
Definition emit_to (sock : SocketId) (room : Value) (ev : string)
    (msg : RelayedMessage) (live : list SocketId) (rs : list (SocketId * Value))
  : list Delivery :=
  match rooms_of room with
  | [] => broadcast_emit sock ev msg live
  | _ :: _ => to_emit sock room ev msg rs
  end.

(** *** The handlers *)

(** [io.on("connection", ...)]: the socket is live and, as every
    Socket.IO socket, in the room named by its own id. The live sockets
    are keyed by id. *)
Definition connection (sock : SocketId) (st : State) : State :=
  {| userSocketMap := userSocketMap st;
     sockets := if existsb (String.eqb sock) (sockets st) then sockets st
                else sockets st ++ [sock];
     rooms := join sock (Str sock) (rooms st) |}.

(** The [registerUser] handler below its log line: the guarded
    [userSocketMap.set(userId, socket.id)]. *)
Definition registerUser (sock : SocketId) (userId : Value) (st : State) : State :=
  if truthy userId then
    {| userSocketMap := JsMap.set userId sock (userSocketMap st);
       sockets := sockets st;
       rooms := rooms st |}
  else st.

(** [socket.on("registerUser", (userId) => ...)]: under the guard, the
    log line interpolates [userId] before the map is written. *)
Definition on_registerUser (sock : SocketId) (userId : Value) (st : State)
  : Outcome State :=
  if truthy userId then
    if printable userId then Returned (registerUser sock userId st)
    else Threw "TypeError"
  else Returned st.

(** The [joinRoom] handler below its log line: [socket.join(roomId)]. *)
Definition joinRoom (sock : SocketId) (room : Value) (st : State) : State :=
  {| userSocketMap := userSocketMap st;
     sockets := sockets st;
     rooms := join_each sock room (rooms st) |}.

(** [socket.on("joinRoom", (roomId) => ...)]: the log line interpolates
    [roomId] first. *)
Definition on_joinRoom (sock : SocketId) (room : Value) (st : State)
  : Outcome State :=
  if printable room then Returned (joinRoom sock room st) else Threw "TypeError".

(** The [leaveRoom] handler below its log line: [socket.leave(roomId)]. *)
Definition leaveRoom (sock : SocketId) (room : Value) (st : State) : State :=
  {| userSocketMap := userSocketMap st;
     sockets := sockets st;
     rooms := leave sock room (rooms st) |}.

(** [socket.on("leaveRoom", (roomId) => ...)] *)
Definition on_leaveRoom (sock : SocketId) (room : Value) (st : State)
  : Outcome State :=
  if printable room then Returned (leaveRoom sock room st) else Threw "TypeError".

(** [const { text, roomId, senderId } = data] *)
Definition destructure (data : Value) : Outcome RelayedMessage :=
  match get_property "text" data, get_property "roomId" data,
        get_property "senderId" data with
  | Returned t, Returned r, Returned s =>
      Returned {| text := t; roomId := r; senderId := s |}
  | Threw e, _, _ | _, Threw e, _ | _, _, Threw e => Threw e
  end.

(** The log line of the [sendMessage] handler interpolates [roomId],
    [senderId] and [text]. *)
Definition loggable (msg : RelayedMessage) : bool :=
  printable (roomId msg) && printable (senderId msg) && printable (text msg).

(** [socket.on("sendMessage", (data) => ...)]: the state it leaves and
    what it sends. *)
Definition sendMessage (sock : SocketId) (data : Value) (st : State)
  : Outcome (State * list Delivery) :=
  match destructure data with
  | Threw e => Threw e
  | Returned msg =>
      if loggable msg then
        Returned (st, emit_to sock (roomId msg) "receiveMessage" msg
                        (sockets st) (rooms st))
      else Threw "TypeError"
  end.



(** The loop of the disconnect handler over [userSocketMap.entries()]:
    the first entry that holds the socket is deleted, then [break]. *)
Fixpoint unregister_loop (sock : SocketId) (es : list (Value * SocketId))
    (m : JsMap.t SocketId) : JsMap.t SocketId :=
  match es with
  | [] => m
  | (userId, socketId) :: rest =>
      if String.eqb socketId sock then JsMap.delete userId m
      else unregister_loop sock rest m
  end.

(** The [userId] of that entry, which the loop logs once it has deleted
    the entry. *)
Fixpoint unregistered (sock : SocketId) (es : list (Value * SocketId))
  : option Value :=
  match es with
  | [] => None
  | (userId, socketId) :: rest =>
      if String.eqb socketId sock then Some userId else unregistered sock rest
  end.

(** The [disconnect] handler without its log lines; Socket.IO has closed
    the socket and emptied its rooms by then. *)
Definition disconnect (sock : SocketId) (st : State) : State :=
  {| userSocketMap :=
       unregister_loop sock (JsMap.entries (userSocketMap st)) (userSocketMap st);
     sockets := List.filter (λ s, negb (String.eqb s sock)) (sockets st);
     rooms := leave_all sock (rooms st) |}.

(** [socket.on("disconnect", (reason) => ...)]: [reason] is a string of
    Socket.IO's; the [userId] is interpolated after the delete. *)
Definition on_disconnect (sock : SocketId) (st : State) : Outcome State :=
  match unregistered sock (JsMap.entries (userSocketMap st)) with
  | Some userId =>
      if printable userId then Returned (disconnect sock st) else Threw "TypeError"
  | None => Returned (disconnect sock st)
  end.

(** *** The event loop *)

Inductive Event : Type :=
| Connection (sock : SocketId)
| RegisterUser (sock : SocketId) (userId : Value)
| JoinRoom (sock : SocketId) (roomId : Value)
| LeaveRoom (sock : SocketId) (roomId : Value)
| SendMessage (sock : SocketId) (data : Value)
| Disconnect (sock : SocketId).

(** A handler that only changes the state sends nothing. *)
Definition silent (o : Outcome State) : Outcome (State * list Delivery) :=
  match o with
  | Returned st => Returned (st, [])
  | Threw e => Threw e
  end.

Definition step (st : State) (ev : Event) : Outcome (State * list Delivery) :=
  match ev with
  | Connection sock => Returned (connection sock st, [])
  | RegisterUser sock userId => silent (on_registerUser sock userId st)
  | JoinRoom sock room => silent (on_joinRoom sock room st)
  | LeaveRoom sock room => silent (on_leaveRoom sock room st)
  | SendMessage sock data => sendMessage sock data st
  | Disconnect sock => silent (on_disconnect sock st)
  end.

(** Handling a sequence of events, as long as no handler throws. *)
Fixpoint run (evs : list Event) (st : State) : Outcome State :=
  match evs with
  | [] => Returned st
  | ev :: rest =>
      match step st ev with
      | Returned (st', _) => run rest st'
      | Threw e => Threw e
      end
  end.

(** [userSocketMap.get(user)] *)
Definition lookup (user : Value) (st : State) : option SocketId :=
  JsMap.get user (userSocketMap st).

(** An event that neither registers [user] nor disconnects [sock]. *)
Definition leaves_alone (user : Value) (sock : SocketId) (ev : Event) : bool :=
  match ev with
  | RegisterUser _ userId => negb (strict_eq userId user)
  | Disconnect s => negb (String.eqb s sock)
  | _ => true
  end.

End Server.

(** ** The chat page (client) *)

(** [new Date(s).getTime()]: the milliseconds of a timestamp string, [None]
    standing for [NaN]. *)
Class DateParser : Type := date_parse : string → option Z.

Module Client.

(** The template literal [`${n}`] of an integral number. *)
Definition number_to_string (n : Z) : string :=
  NilZero.string_of_int (Z.to_int n).

(** Truthiness of a [string | null | undefined]. *)
Definition truthy (o : option string) : bool :=
  match o with
  | Some s => negb (String.eqb s "")
  | None => false
  end.

(** [x === y] between a string and a [string | null | undefined]. *)
Definition same (x : string) (o : option string) : bool :=
  match o with
  | Some y => String.eqb x y
  | None => false
  end.

(** White space and line terminators among the code units below 256. *)
Definition is_white_space (ch : ascii) : bool :=
  let n := N_of_ascii ch in
  ((9 <=? n) && (n <=? 13) || (n =? 32) || (n =? 160))%N.

Fixpoint trimStart (s : string) : string :=
  match s with
  | String ch s' => if is_white_space ch then trimStart s' else s
  | EmptyString => EmptyString
  end.

Fixpoint trimEnd (s : string) : string :=
  match s with
  | String ch s' =>
      let r := trimEnd s' in
      if is_white_space ch && String.eqb r "" then "" else String ch r
  | EmptyString => EmptyString
  end.

(** [s.trim()] *)
Definition trim (s : string) : string := trimEnd (trimStart s).

Inductive Sender : Type := me | other.

(** [interface ChatMessage]; a [timestamp] of [None] is [NaN]. *)
Record ChatMessage : Type := {
  id : string;
  text : string;
  sender : Sender;
  roomId : string;
  timestamp : option Z;
  senderId : string;
  created_at : option string;
}.

(** A row of [chat_messages], as the history query selects it. *)
Record Row : Type := {
  row_id : string;
  room_id : string;
  sender_id : string;
  message_text : string;
  row_created_at : string;
}.

(** What the insert selects back: [{ id, created_at }]. *)
Record Inserted : Type := {
  inserted_id : string;
  inserted_created_at : string;
}.

(** How the awaited insert settles: [{ error }], [{ data }] (the row may
    be missing), or a rejected promise. *)
Inductive InsertResult : Type :=
| InsertError
| InsertData (insertedMessage : option Inserted)
| InsertRejected.

(** How the awaited history query settles. *)
Inductive QueryResult : Type :=
| QueryError
| QueryData (data : option (list Row))
| QueryRejected.

(** What the client emits on its socket. *)
Inductive Emit : Type :=
| registerUser (userId : string)
| joinRoom (roomId : string)
| leaveRoom (roomId : string)
| sendMessage (text roomId senderId : string).

(** The payload of a [receiveMessage] event. *)
Record Relayed : Type := {
  msg_text : string;
  msg_roomId : string;
  msg_senderId : string;
}.

(** The state of the page: the [useState] cells, the two refs, and the
    module-level [socket] with what went out on it. *)
Record State : Type := {
  message : string;
  chatHistory : list ChatMessage;
  currentUserId : option string;
  selectedChatId : option string;
  currentRoomId : option string;
  isSocketConnected : bool;
  lastViewedTimestamps : gmap string Z;
  currentUserRef : option string;
  currentRoomIdRef : option string;
  socket : option (list Emit);
}.

Definition setChatHistory (f : list ChatMessage → list ChatMessage) (c : State) : State :=
  {| message := message c; chatHistory := f (chatHistory c);
     currentUserId := currentUserId c; selectedChatId := selectedChatId c;
     currentRoomId := currentRoomId c; isSocketConnected := isSocketConnected c;
     lastViewedTimestamps := lastViewedTimestamps c;
     currentUserRef := currentUserRef c; currentRoomIdRef := currentRoomIdRef c;
     socket := socket c |}.

Definition setMessage (s : string) (c : State) : State :=
  {| message := s; chatHistory := chatHistory c;
     currentUserId := currentUserId c; selectedChatId := selectedChatId c;
     currentRoomId := currentRoomId c; isSocketConnected := isSocketConnected c;
     lastViewedTimestamps := lastViewedTimestamps c;
     currentUserRef := currentUserRef c; currentRoomIdRef := currentRoomIdRef c;
     socket := socket c |}.

(** [socket.emit(...)] on a live socket. *)
Definition emit (e : Emit) (c : State) : State :=
  {| message := message c; chatHistory := chatHistory c;
     currentUserId := currentUserId c; selectedChatId := selectedChatId c;
     currentRoomId := currentRoomId c; isSocketConnected := isSocketConnected c;
     lastViewedTimestamps := lastViewedTimestamps c;
     currentUserRef := currentUserRef c; currentRoomIdRef := currentRoomIdRef c;
     socket := (λ sent, sent ++ [e]) <$> socket c |}.

(** The [onFocus] of the input: [{ ...prev, [currentRoomId]: Date.now() }]. *)
Definition onFocus (now : Z) (c : State) : State :=
  match currentRoomId c with
  | Some r =>
      if String.eqb r "" then c
      else
        {| message := message c; chatHistory := chatHistory c;
           currentUserId := currentUserId c; selectedChatId := selectedChatId c;
           currentRoomId := currentRoomId c; isSocketConnected := isSocketConnected c;
           lastViewedTimestamps := <[r := now]> (lastViewedTimestamps c);
           currentUserRef := currentUserRef c; currentRoomIdRef := currentRoomIdRef c;
           socket := socket c |}
  | None => c
  end.

(** *** [receiveMessageHandler] *)

(** [now_id] and [now_ts] are the two readings of [Date.now()]. *)
Definition receiveMessageHandler (now_id now_ts : Z) (msg : Relayed) (c : State) : State :=
  let userId := currentUserRef c in
  let activeRoomId := currentRoomIdRef c in
  if same (msg_senderId msg) userId then c
  else if same (msg_roomId msg) activeRoomId then
    let newMessageId := msg_senderId msg +:+ "-" +:+ number_to_string now_id in
    setChatHistory (λ prev, prev ++ [
      {| id := newMessageId; text := msg_text msg; sender := other;
         roomId := msg_roomId msg; timestamp := Some now_ts;
         senderId := msg_senderId msg; created_at := None |} ]) c
  else c.

Section WithDates.
Context {parser : DateParser}.

(** *** [fetchHistory] *)

Definition formatRow (currentUserId : string) (msg : Row) : ChatMessage :=
  {| id := row_id msg; text := message_text msg;
     sender := if String.eqb (sender_id msg) currentUserId then me else other;
     roomId := room_id msg; timestamp := date_parse (row_created_at msg);
     senderId := sender_id msg; created_at := Some (row_created_at msg) |}.

Definition fetchHistory (result : QueryResult) (c : State) : State :=
  match currentUserId c with
  | Some uid =>
      if String.eqb uid "" then setChatHistory (λ _, []) c
      else match result with
           | QueryData (Some data) => setChatHistory (λ _, formatRow uid <$> data) c
           | QueryData None | QueryError | QueryRejected => setChatHistory (λ _, []) c
           end
  | None => setChatHistory (λ _, []) c
  end.

(** *** [firstUnreadIndex] *)

Definition filteredChatHistory (c : State) : list ChatMessage :=
  List.filter (λ msg, same (roomId msg) (currentRoomId c)) (chatHistory c).

(** [lastViewedTimestamps[currentRoomId] || 0], or [0] without a room. *)
Definition lastViewedTime (c : State) : Z :=
  match currentRoomId c with
  | Some r => if String.eqb r "" then 0 else default 0 (lastViewedTimestamps c !! r)
  | None => 0
  end.

(** [Array.prototype.findIndex] *)
Fixpoint findIndex {A : Type} (p : A → bool) (l : list A) : Z :=
  match l with
  | [] => -1
  | x :: l' =>
      if p x then 0
      else let i := findIndex p l' in if i <? 0 then -1 else i + 1
  end.

Definition messageTime (msg : ChatMessage) : option Z :=
  if truthy (created_at msg)
  then date_parse (default "" (created_at msg))
  else timestamp msg.

(** The callback of [findIndex]. *)
Definition isFirstUnread (lastViewedTime : Z) (msg : ChatMessage) : bool :=
  let isMe := match sender msg with me => true | other => false end in
  match messageTime msg with
  | Some t => (* isValidTime *) (lastViewedTime <? t) && negb isMe
  | None => false
  end.

Definition firstUnreadIndexOf (lastViewedTime : Z) (history : list ChatMessage) : Z :=
  if 0 <? lastViewedTime then findIndex (isFirstUnread lastViewedTime) history
  else -1.

Definition firstUnreadIndex (c : State) : Z :=
  firstUnreadIndexOf (lastViewedTime c) (filteredChatHistory c).

(** *** [handleSend] *)

(** What the handler holds across the [await]. *)
Record Pending : Type := {
  tempId : string;
  messageText : string;
  pendingRoomId : string;
  pendingUserId : string;
}.

Definition newMessage (now_ts : Z) (p : Pending) : ChatMessage :=
  {| id := tempId p; text := messageText p; sender := me;
     roomId := pendingRoomId p; timestamp := Some now_ts;
     senderId := pendingUserId p; created_at := None |}.

(** Up to the [await]: the guard ([supabase], the client object, is
    always there), the cleared input and the optimistic message. [None]
    is the [else] branch, which only logs. *)
Definition submit (now_id now_ts : Z) (c : State) : option (Pending * State) :=
  match socket c, currentRoomId c, currentUserId c with
  | Some _, Some room, Some uid =>
      if isSocketConnected c && negb (String.eqb (trim (message c)) "")
         && truthy (currentRoomId c) && truthy (selectedChatId c)
         && truthy (currentUserId c)
      then
        let p := {| tempId := uid +:+ "-" +:+ number_to_string now_id;
                    messageText := message c;
                    pendingRoomId := room; pendingUserId := uid |} in
        Some (p, setChatHistory (λ prev, prev ++ [newMessage now_ts p])
                   (setMessage "" c))
      else None
  | _, _, _ => None
  end.

(** The revert of the optimistic update: drop the temporary id, give
    the text back to the input. *)
Definition revert (p : Pending) (c : State) : State :=
  setMessage (messageText p)
    (setChatHistory
       (List.filter (λ msg, negb (String.eqb (id msg) (tempId p)))) c).

(** The callback that puts the stored id and timestamp on the
    optimistic message. *)
Definition confirmMessage (t : string) (insertedMessage : Inserted)
    (msg : ChatMessage) : ChatMessage :=
  if String.eqb (id msg) t then
    {| id := inserted_id insertedMessage; text := text msg; sender := sender msg;
       roomId := roomId msg;
       timestamp := date_parse (inserted_created_at insertedMessage);
       senderId := senderId msg;
       created_at := Some (inserted_created_at insertedMessage) |}
  else msg.

(** After the [await]. The socket is read again here: were it gone,
    [socket.emit] would throw into the [catch]. *)
Definition settle (p : Pending) (result : InsertResult) (c : State) : State :=
  match result with
  | InsertError => revert p c
  | InsertRejected => revert p c
  | InsertData insertedMessage =>
      let c1 :=
        match insertedMessage with
        | Some ins => setChatHistory (fmap (confirmMessage (tempId p) ins)) c
        | None => c
        end in
      match socket c1 with
      | Some _ =>
          emit (sendMessage (messageText p) (pendingRoomId p) (pendingUserId p)) c1
      | None => revert p c1
      end
  end.

(** The handler, run without anything else in between. *)
Definition handleSend (now_id now_ts : Z) (result : InsertResult) (c : State) : State :=
  match submit now_id now_ts c with
  | Some (p, c1) => settle p result c1
  | None => c
  end.

(** The persistence write failed. *)
Definition failed (result : InsertResult) : bool :=
  match result with
  | InsertError | InsertRejected => true
  | InsertData _ => false
  end.

(** The [sender] tag of a message agrees with its [senderId], for the
    user [selfId]. *)
Definition sender_agrees (selfId : string) (msg : ChatMessage) : Prop :=
  sender msg = me ↔ senderId msg = selfId.

(** The unread test in the words of the specification: the stored
    [created_at] of the message is later than [lastViewed], and the peer
    sent it. *)
Definition unread_by_created_at (selfId : string) (lastViewed : Z)
    (msg : ChatMessage) : Prop :=
  (∃ s t, created_at msg = Some s ∧ date_parse s = Some t ∧ lastViewed < t) ∧
  senderId msg ≠ selfId.

(** The time a message is shown under, in words: the stored [created_at]
    of a message that carries a non-empty one, as a date; for a message
    without one (sent or received live, not yet stored), the reading of
    the client's clock it was given. *)
Inductive shown_at (msg : ChatMessage) (t : Z) : Prop :=
| stored_time (s : string) :
    created_at msg = Some s → s ≠ "" → date_parse s = Some t → shown_at msg t
| client_time :
    created_at msg = None ∨ created_at msg = Some "" →
    timestamp msg = Some t → shown_at msg t.

(** A message counts as unread: the time it is shown under is later
    than [lastViewed], and the peer sent it. *)
Definition unread (selfId : string) (lastViewed : Z) (msg : ChatMessage) : Prop :=
  (∃ t, shown_at msg t ∧ lastViewed < t) ∧ senderId msg ≠ selfId.

End WithDates.

End Client.

(** ** Sample data *)

Module Sample.
Import Client.

(** A clock on which ["t9"] parses to the millisecond [9]. *)
Definition dates : DateParser :=
  λ s, if String.eqb s "t9" then Some 9 else None.

Definition earlier : ChatMessage :=
  {| id := "id1"; text := "hi"; sender := other; roomId := "a--b";
     timestamp := Some 5; senderId := "a"; created_at := None |}.

(** User [b] has room [a--b] open and has typed ["hello"]. *)
Definition page : State :=
  {| message := "hello"; chatHistory := [earlier];
     currentUserId := Some "b"; selectedChatId := Some "a";
     currentRoomId := Some "a--b"; isSocketConnected := true;
     lastViewedTimestamps := ∅;
     currentUserRef := Some "b"; currentRoomIdRef := Some "a--b";
     socket := Some [] |}.

Definition pending : Pending :=
  {| tempId := "b-7"; messageText := "hello";
     pendingRoomId := "a--b"; pendingUserId := "b" |}.

Definition submitted : State :=
  setChatHistory (λ prev, prev ++ [newMessage 7 pending]) (setMessage "" page).

Definition stored : Inserted :=
  {| inserted_id := "id2"; inserted_created_at := "t9" |}.

(** What the page of [b] shows: a message of the peer from before the
    last view, the own reply, a later message of the peer. *)
Definition history : list ChatMessage :=
  [ earlier;
    {| id := "id2"; text := "hello"; sender := me; roomId := "a--b";
       timestamp := Some 9; senderId := "b"; created_at := Some "t9" |};
    {| id := "a-12"; text := "yo"; sender := other; roomId := "a--b";
       timestamp := Some 12; senderId := "a"; created_at := None |} ].

(** A message of the peer from before, a stored message of the peer
    (its [timestamp] field is off on purpose: the stored [created_at] is
    what counts), a live message of the peer. *)
Definition mixed : list ChatMessage :=
  [ earlier;
    {| id := "id3"; text := "there?"; sender := other; roomId := "a--b";
       timestamp := Some 3; senderId := "a"; created_at := Some "t9" |};
    {| id := "a-12"; text := "yo"; sender := other; roomId := "a--b";
       timestamp := Some 12; senderId := "a"; created_at := None |} ].

(** The page of [b] showing [history], the room never viewed. *)
Definition unread_page : State :=
  setChatHistory (λ _, history) page.

(** The same page after the input had the focus at time [20]. *)
Definition viewed_page : State := onFocus 20 unread_page.

(** A message of [a] on its way to [b]. *)
Definition arrival : Relayed :=
  {| msg_text := "still there?"; msg_roomId := "a--b"; msg_senderId := "a" |}.

(** The page of [b], still in room [a--b], once [b] has selected [c]. *)
Definition switching : State :=
  {| message := ""; chatHistory := [earlier];
     currentUserId := Some "b"; selectedChatId := Some "c";
     currentRoomId := Some "a--b"; isSocketConnected := true;
     lastViewedTimestamps := ∅;
     currentUserRef := Some "b"; currentRoomIdRef := Some "a--b";
     socket := Some [] |}.

(** The stored row of the first message. *)
Definition row : Row :=
  {| row_id := "id1"; room_id := "a--b"; sender_id := "a";
     message_text := "hi"; row_created_at := "t5" |}.

(** The relay after [bob] registered on [s0], [ann] on [s1], [s2]
    connected and [s1] joined a room. *)
Definition relay : Server.State :=
  Server.joinRoom "s1" (JS.Str "ann--bob")
    (Server.connection "s2"
       (Server.registerUser "s1" (JS.Str "ann")
          (Server.connection "s1"
             (Server.registerUser "s0" (JS.Str "bob")
                (Server.connection "s0" Server.initial))))).

End Sample.

(** ** The chat page: rooms and the socket *)

Module Page.
Import Client.

(** Only white space, so that [trim] leaves nothing. *)
Definition blank (s : string) : bool :=
  forallb is_white_space (list_ascii_of_string s).

Definition setCurrentRoomId (r : option string) (c : State) : State :=
  {| message := message c; chatHistory := chatHistory c;
     currentUserId := currentUserId c; selectedChatId := selectedChatId c;
     currentRoomId := r; isSocketConnected := isSocketConnected c;
     lastViewedTimestamps := lastViewedTimestamps c;
     currentUserRef := currentUserRef c; currentRoomIdRef := currentRoomIdRef c;
     socket := socket c |}.

(** The listener of the socket's [disconnect]: the flag goes down and the
    module-level [socket] is nulled. *)
Definition onDisconnect (c : State) : State :=
  {| message := message c; chatHistory := chatHistory c;
     currentUserId := currentUserId c; selectedChatId := selectedChatId c;
     currentRoomId := currentRoomId c; isSocketConnected := false;
     lastViewedTimestamps := lastViewedTimestamps c;
     currentUserRef := currentUserRef c; currentRoomIdRef := currentRoomIdRef c;
     socket := None |}.

(** The effect [currentRoomIdRef.current = currentRoomId]. *)
Definition syncRoomRef (c : State) : State :=
  {| message := message c; chatHistory := chatHistory c;
     currentUserId := currentUserId c; selectedChatId := selectedChatId c;
     currentRoomId := currentRoomId c; isSocketConnected := isSocketConnected c;
     lastViewedTimestamps := lastViewedTimestamps c;
     currentUserRef := currentUserRef c; currentRoomIdRef := currentRoomId c;
     socket := socket c |}.

(** [currentUserId && selectedChatId ? createRoomId(...) : null] *)
Definition targetRoomId (c : State) : option string :=
  match currentUserId c, selectedChatId c with
  | Some uid, Some sel =>
      if truthy (Some uid) && truthy (Some sel)
      then Some (RoomIdentity.createRoomId uid sel) else None
  | _, _ => None
  end.

(** The [else] branch of the room effect: out of the room of the ref, if
    the socket is there and connected. [connected] is [socket.connected]. *)
Definition leaveStaleRoom (connected : bool) (c : State) : State :=
  match currentRoomIdRef c, socket c with
  | Some r, Some _ =>
      if truthy (Some r) && connected
      then setChatHistory (λ _, []) (setCurrentRoomId None (emit (leaveRoom r) c))
      else c
  | _, _ => c
  end.

(** The body of the room effect; the second component is the room whose
    history it starts to fetch. *)
Definition roomEffect (connected : bool) (c : State) : State * option string :=
  match targetRoomId c, socket c with
  | Some target, Some _ =>
      if truthy (Some target) && isSocketConnected c then
        if same target (currentRoomIdRef c) then (c, None)
        else (setCurrentRoomId (Some target) (emit (joinRoom target) c), Some target)
      else (leaveStaleRoom connected c, None)
  | _, _ => (leaveStaleRoom connected c, None)
  end.

(** The cleanup of the room effect. *)
Definition roomEffectCleanup (connected : bool) (c : State) : State :=
  match currentRoomIdRef c, socket c with
  | Some roomToLeave, Some _ =>
      if truthy (Some roomToLeave) && connected
      then emit (leaveRoom roomToLeave) c else c
  | _, _ => c
  end.

End Page.

(** ** The wire between page and relay

    Socket.IO carries the argument of [emit] to the handler of the other
    side as it is; [ref] is where the relay allocates the object. *)

Module Wire.

Definition to_relay (ref : positive) (sock : Server.SocketId) (e : Client.Emit)
  : Server.Event :=
  match e with
  | Client.registerUser userId => Server.RegisterUser sock (JS.Str userId)
  | Client.joinRoom roomId => Server.JoinRoom sock (JS.Str roomId)
  | Client.leaveRoom roomId => Server.LeaveRoom sock (JS.Str roomId)
  | Client.sendMessage text roomId senderId =>
      Server.SendMessage sock
        (JS.Obj ref [("text", JS.Str text); ("roomId", JS.Str roomId);
                     ("senderId", JS.Str senderId)])
  end.

(** The payload of [receiveMessage] as the page types it: three strings. *)
Definition to_page (msg : Server.RelayedMessage) : option Client.Relayed :=
  match Server.text msg, Server.roomId msg, Server.senderId msg with
  | JS.Str t, JS.Str r, JS.Str s =>
      Some {| Client.msg_text := t; Client.msg_roomId := r; Client.msg_senderId := s |}
  | _, _, _ => None
  end.

End Wire.

(** ** The row-level policies of [chat_messages] *)

Module Policy.

(** [s LIKE pat]: [%] stands for any run of characters, [_] for any one
    character, a backslash takes the next character literally (a pattern
    that ends in a backslash matches nothing here). *)
Fixpoint like (pat : string) : string → bool :=
  match pat with
  | EmptyString => λ s, String.eqb s ""
  | String p pat' =>
      if Ascii.eqb p "%" then
        let rest := like pat' in
        fix any (s : string) : bool :=
          rest s || match s with
                    | String _ s' => any s'
                    | EmptyString => false
                    end
      else if Ascii.eqb p "_" then
        λ s, match s with
             | String _ s' => like pat' s'
             | EmptyString => false
             end
      else if Ascii.eqb p "\" then
        match pat' with
        | String q pat'' =>
            λ s, match s with
                 | String ch s' => Ascii.eqb ch q && like pat'' s'
                 | EmptyString => false
                 end
        | EmptyString => λ _, false
        end
      else
        λ s, match s with
             | String ch s' => Ascii.eqb ch p && like pat' s'
             | EmptyString => false
             end
  end.

(** [room_id LIKE '%' || auth.uid()::text || '%'] *)
Definition in_room_id (uid room_id : string) : bool :=
  like ("%" +:+ uid +:+ "%") room_id.

(** ["Allow insert for room participants"] *)
Definition insert_check (uid room_id sender_id : string) : bool :=
  String.eqb uid sender_id && in_room_id uid room_id.

(** ["Allow select for room participants"] *)
Definition select_using (uid room_id : string) : bool := in_room_id uid room_id.

(** No character of the identifier means anything to [LIKE]. *)
Definition plain (uid : string) : bool :=
  forallb (λ ch, negb (Ascii.eqb ch "%" || Ascii.eqb ch "_" || Ascii.eqb ch "\"))
    (list_ascii_of_string uid).

End Policy.

(** ** Compatibility of two students ([lib/compatibility.ts]) *)

Module Compatibility.

(** [interface StudentProfile]; the year is an integral number. *)
Record StudentProfile : Type := {
  user_id : string;
  name : string;
  field_of_study : option string;
  year_of_study : option Z;
  avatar_url : option string;
}.

(** Truthiness of a [number | null]. *)
Definition truthy_year (y : option Z) : bool :=
  match y with
  | Some n => negb (n =? 0)
  | None => false
  end.

Definition calculateCompatibility (profile1 profile2 : StudentProfile) : Z :=
  let score := 0 in
  let score :=
    if Client.truthy (field_of_study profile1)
       && Client.truthy (field_of_study profile2)
       && String.eqb (default "" (field_of_study profile1))
            (default "" (field_of_study profile2))
    then score + 5 else score in
  let score :=
    if truthy_year (year_of_study profile1) && truthy_year (year_of_study profile2)
    then
      let yearDiff :=
        Z.abs (default 0 (year_of_study profile1)
               - default 0 (year_of_study profile2)) in
      if yearDiff =? 0 then score + 3
      else if yearDiff =? 1 then score + 1
      else score
    else score in
  score.

End Compatibility.

(** ** The middleware *)

Module Middleware.

(** What the middleware answers: the request goes on, or a redirect to
    [pathname], with the path asked for as [redirectedFrom]. *)
Inductive Response : Type :=
| Next
| Redirect (pathname : string) (redirectedFrom : option string).

Definition protectedRoutes : list string := ["/dashboard"].

(** [session] says whether there is one. *)
Definition middleware (session : bool) (pathname : string) : Response :=
  if negb session && existsb (λ route, String.prefix route pathname) protectedRoutes
  then Redirect "/signin" (Some pathname)
  else if session && (String.eqb pathname "/signin" || String.eqb pathname "/signup")
  then Redirect "/dashboard" None
  else Next.

End Middleware.

(** ** The matches route ([GET /api/matches]) *)

Module MatchesRoute.

(** A row of [matches]. *)
Record MatchRow : Type := {
  student1_user_id : option string;
  student2_user_id : option string;
}.

(** A row of [students], as selected. *)
Record ProfileRow : Type := {
  user_id : string;
  name : option string;
  avatar_url : option string;
}.

(** An entry of the answer. *)
Record Match : Type := {
  match_id : string;
  match_name : string;
  match_avatar_url : option string;
}.

(** What [getSession] gives. *)
Inductive Session : Type :=
| SessionError (message : string)
| NoSession
| SessionOf (userId : string).

(** What a query gives: [{ error }] or [{ data }]. *)
Inductive Result (A : Type) : Type :=
| QueryError (message : string)
| QueryData (data : option A).
Arguments QueryError {A} message.
Arguments QueryData {A} data.

Inductive Body : Type :=
| Unauthorized
| Matches (matches : list Match)
| Failed (details : string).

Record Response : Type := {
  status : Z;
  body : Body;
}.

(** [x === currentUserId] for a nullable column. *)
Definition is_user (currentUserId : string) (x : option string) : bool :=
  match x with
  | Some s => String.eqb s currentUserId
  | None => false
  end.

(** The ids of the other users of the matches. *)
Definition matchedUserIds (currentUserId : string) (matchesResult : list MatchRow)
  : list (option string) :=
  List.filter (λ id, negb (is_user currentUserId id)
                     && match id with Some _ => true | None => false end)
    ((λ m, if is_user currentUserId (student1_user_id m)
           then student2_user_id m else student1_user_id m) <$> matchesResult).

Definition formatProfile (profile : ProfileRow) : Match :=
  {| match_id := user_id profile;
     match_name := if Client.truthy (name profile)
                   then default "" (name profile) else "Unnamed User";
     match_avatar_url := avatar_url profile |}.

(** [error.message || "Unknown error"] *)
Definition details_of (message : string) : string :=
  if String.eqb message "" then "Unknown error" else message.

Definition failure (message : string) : Response :=
  {| status := 500; body := Failed (details_of message) |}.

(** The handler; [profiles ids] is what the query for the profiles of
    [ids] gives. *)
Definition GET (session : Session) (matches : Result (list MatchRow))
    (profiles : list (option string) → Result (list ProfileRow)) : Response :=
  match session with
  | SessionError m => failure ("Authentication error: " +:+ m)
  | NoSession => {| status := 401; body := Unauthorized |}
  | SessionOf currentUserId =>
      match matches with
      | QueryError m => failure ("Database error fetching matches: " +:+ m)
      | QueryData None => {| status := 200; body := Matches [] |}
      | QueryData (Some matchesResult) =>
          if (length matchesResult =? 0)%nat
          then {| status := 200; body := Matches [] |}
          else
            let ids := matchedUserIds currentUserId matchesResult in
            if (length ids =? 0)%nat
            then {| status := 200; body := Matches [] |}
            else
              match profiles ids with
              | QueryError m => failure ("Database error fetching profiles: " +:+ m)
              | QueryData profilesResult =>
                  {| status := 200;
                     body := Matches (formatProfile <$> default [] profilesResult) |}
              end
      end
  end.

End MatchesRoute.

(** ** What the relay keeps true *)

Module RelayInvariants.
Import JS Server.

(** No socket is twice in the same room. *)
Fixpoint rooms_unique (rs : list (SocketId * Value)) : Prop :=
  match rs with
  | [] => True
  | (s, r) :: rest => in_room s r rest = false ∧ rooms_unique rest
  end.

(** An event that carries something its handler cannot take: a
    [sendMessage] payload that cannot be destructured, or an argument that
    the log line of the handler cannot convert to a string. *)
Definition throwing (ev : Event) : bool :=
  match ev with
  | Connection _ | Disconnect _ => false
  | RegisterUser _ userId => truthy userId && negb (printable userId)
  | JoinRoom _ room | LeaveRoom _ room => negb (printable room)
  | SendMessage _ data =>
      match destructure data with
      | Returned msg => negb (loggable msg)
      | Threw _ => true
      end
  end.

(** Every registered user id went through the log line of its
    registration. *)
Definition keys_printable (m : JsMap.t SocketId) : Prop :=
  ∀ k v, (k, v) ∈ JsMap.entries m → printable k = true.

(** No socket is live twice. *)
Definition sockets_unique (st : State) : Prop := NoDup (sockets st).

(** The sockets that [sendMessage] from [sock] with [data] reaches. *)
Definition reached (sock : SocketId) (data : Value) (st : State) : list SocketId :=
  match sendMessage sock data st with
  | Returned (_, ds) => recipient <$> ds
  | Threw _ => []
  end.

End RelayInvariants.

(** * Part II: properties *)

Section RoomIdentityFacts.
Import RoomIdentity.

Lemma createRoomId_unfold a b :
  createRoomId a b = if sortBefore b a then b +:+ "--" +:+ a else a +:+ "--" +:+ b.
Proof. unfold createRoomId, sort; simpl. by destruct (sortBefore b a). Qed.

Lemma sortBefore_asym a b : sortBefore a b = true → sortBefore b a = false.
Proof.
  unfold sortBefore, String.ltb. rewrite (String.compare_antisym a b).
  by destruct (String.compare b a).
Qed.

Lemma sortBefore_total a b :
  sortBefore a b = false → sortBefore b a = false → a = b.
Proof.
  unfold sortBefore, String.ltb. rewrite (String.compare_antisym a b).
  destruct (String.compare b a) eqn:E; simpl; try done.
  intros _ _. symmetry. by apply String.compare_eq_iff.
Qed.

(** C4: the room identifier does not depend on the order of its two
    arguments: [createRoomId a b = createRoomId b a]. *)
Theorem createRoomId_comm (a b : string) : createRoomId a b = createRoomId b a.
Proof.
  rewrite !createRoomId_unfold.
  destruct (sortBefore b a) eqn:Hba, (sortBefore a b) eqn:Hab; try done.
  - apply sortBefore_asym in Hba. congruence.
  - by rewrite (sortBefore_total a b).
Qed.

Lemma delimiter_free_cons ch s :
  delimiter_free (String ch s) → ch ≠ "-"%char ∧ delimiter_free s.
Proof.
  unfold delimiter_free, delimiter_freeb; simpl.
  intros [Hch Hs]%andb_prop; split; [|done].
  intros ->. by vm_compute in Hch.
Qed.

(** Splitting at the delimiter is unambiguous when the text before it
    holds no delimiter character. *)
Lemma delimiter_split a b c d :
  delimiter_free a → delimiter_free c →
  a +:+ "--" +:+ b = c +:+ "--" +:+ d → a = c ∧ b = d.
Proof.
  revert c. induction a as [|x a IH]; intros [|y c] Ha Hc; simpl.
  - intros Heq. by simplify_eq/=.
  - apply delimiter_free_cons in Hc as [Hy _]. intros Heq. by simplify_eq/=.
  - apply delimiter_free_cons in Ha as [Hx _]. intros Heq. by simplify_eq/=.
  - apply delimiter_free_cons in Ha as [_ Ha].
    apply delimiter_free_cons in Hc as [_ Hc].
    intros [= -> Heq]. by destruct (IH c Ha Hc Heq) as [-> ->].
Qed.

(** C5: under the delimiter constraint the room identifier determines the
    unordered pair of users: equal identifiers come from equal pairs. *)
Theorem createRoomId_injective (a b c d : string) :
  delimiter_free a → delimiter_free b →
  delimiter_free c → delimiter_free d →
  createRoomId a b = createRoomId c d →
  (a = c ∧ b = d) ∨ (a = d ∧ b = c).
Proof.
  intros Ha Hb Hc Hd. rewrite !createRoomId_unfold.
  destruct (sortBefore b a), (sortBefore d c); intros Heq;
    apply delimiter_split in Heq as [-> ->]; auto.
Qed.

Lemma createRoomId_injective_witness :
  ("alice" = "bob" ∧ "bob" = "alice") ∨ ("alice" = "alice" ∧ "bob" = "bob").
Proof.
  apply (createRoomId_injective "alice" "bob" "bob" "alice"); reflexivity.
Defined.

(** Without the constraint two distinct pairs can share a room. *)
Example createRoomId_alias :
  createRoomId "a" "b--c" = createRoomId "a--b" "c".
Proof. reflexivity. Qed.

End RoomIdentityFacts.

(** ** The presence map *)

Section JsMapFacts.
Import JS.
Context {V : Type}.
Implicit Types (m : JsMap.t V) (k : Value) (v : V).

Lemma strict_eq_identity x y : strict_eq x y = true ↔ identity x = identity y.
Proof.
  destruct x, y; simpl; try (split; [done | intros [=]]); try done.
  - rewrite Bool.eqb_true_iff. split; [by intros -> | by intros [=]].
  - rewrite Z.eqb_eq. split; [by intros -> | by intros [=]].
  - rewrite String.eqb_eq. split; [by intros -> | by intros [=]].
  - rewrite Pos.eqb_eq. split; [by intros -> | by intros [=]].
  - rewrite Pos.eqb_eq. split; [by intros -> | by intros [=]].
Qed.

Lemma strict_eq_refl x : strict_eq x x = true.
Proof. by apply strict_eq_identity. Qed.

Lemma strict_eq_congr x y z :
  strict_eq x y = true → strict_eq x z = strict_eq y z.
Proof.
  intros Hxy%strict_eq_identity.
  destruct (strict_eq x z) eqn:Hxz, (strict_eq y z) eqn:Hyz; try done.
  - apply strict_eq_identity in Hxz.
    assert (strict_eq y z = true) by (apply strict_eq_identity; congruence).
    congruence.
  - apply strict_eq_identity in Hyz.
    assert (strict_eq x z = true) by (apply strict_eq_identity; congruence).
    congruence.
Qed.

Lemma strict_eq_sym x y : strict_eq x y = strict_eq y x.
Proof.
  destruct (strict_eq x y) eqn:Hxy, (strict_eq y x) eqn:Hyx; try done.
  - apply strict_eq_identity in Hxy.
    assert (strict_eq y x = true) by by apply strict_eq_identity.
    congruence.
  - apply strict_eq_identity in Hyx.
    assert (strict_eq x y = true) by by apply strict_eq_identity.
    congruence.
Qed.

Lemma get_congr k k' m :
  strict_eq k k' = true → JsMap.get k m = JsMap.get k' m.
Proof.
  intros Heq. induction m as [|[k0 v0] m IH]; simpl; [done|].
  rewrite (strict_eq_sym k0 k), (strict_eq_congr _ _ k0 Heq), (strict_eq_sym k' k0).
  by rewrite IH.
Qed.

Lemma get_set_eq k v m : JsMap.get k (JsMap.set k v m) = Some v.
Proof.
  induction m as [|[k' v'] m IH]; simpl.
  - by rewrite strict_eq_refl.
  - destruct (strict_eq k' k) eqn:E; simpl; by rewrite E.
Qed.

Lemma get_set_ne k k' v m :
  strict_eq k k' = false → JsMap.get k' (JsMap.set k v m) = JsMap.get k' m.
Proof.
  intros Hne. induction m as [|[k0 v0] m IH]; simpl.
  - by rewrite Hne.
  - destruct (strict_eq k0 k) eqn:E; simpl; [|by rewrite IH].
    by rewrite (strict_eq_congr _ _ k' E), Hne.
Qed.

Lemma get_delete_other k k' m :
  strict_eq k k' = false → JsMap.get k' (JsMap.delete k m) = JsMap.get k' m.
Proof.
  intros Hne. induction m as [|[k0 v0] m IH]; simpl; [done|].
  destruct (strict_eq k0 k) eqn:E; simpl; [|by rewrite IH].
  by rewrite (strict_eq_congr _ _ k' E), Hne.
Qed.

Lemma get_delete_same k k' m :
  JsMap.keys_unique m → strict_eq k k' = true →
  JsMap.get k' (JsMap.delete k m) = None.
Proof.
  intros Hm Heq. induction m as [|[k0 v0] m IH]; simpl; [done|].
  destruct Hm as [Hfresh Hm].
  destruct (strict_eq k0 k) eqn:E; simpl.
  - rewrite <-Hfresh. symmetry. apply get_congr.
    by rewrite (strict_eq_congr _ _ k' E).
  - rewrite (strict_eq_sym k0 k'), <-(strict_eq_congr _ _ k0 Heq).
    rewrite (strict_eq_sym k k0), E. by apply IH.
Qed.

Lemma keys_unique_set k v m :
  JsMap.keys_unique m → JsMap.keys_unique (JsMap.set k v m).
Proof.
  induction m as [|[k0 v0] m IH]; simpl; [done|].
  intros [Hfresh Hm]. destruct (strict_eq k0 k) eqn:E; simpl; [done|].
  split; [|by apply IH].
  by rewrite get_set_ne by by rewrite strict_eq_sym.
Qed.

Lemma keys_unique_delete k m :
  JsMap.keys_unique m → JsMap.keys_unique (JsMap.delete k m).
Proof.
  induction m as [|[k0 v0] m IH]; simpl; [done|].
  intros [Hfresh Hm]. destruct (strict_eq k0 k) eqn:E; simpl; [done|].
  split; [|by apply IH].
  by rewrite get_delete_other by by rewrite strict_eq_sym.
Qed.

Lemma get_entry k v m :
  JsMap.keys_unique m → (k, v) ∈ JsMap.entries m → JsMap.get k m = Some v.
Proof.
  unfold JsMap.entries. induction m as [|[k0 v0] m IH]; simpl.
  - by intros _ ?%elem_of_nil.
  - intros [Hfresh Hm] [[= -> ->]|Hin]%elem_of_cons.
    + by rewrite strict_eq_refl.
    + destruct (strict_eq k0 k) eqn:E; [|by apply IH].
      rewrite (get_congr _ _ _ E), (IH Hm Hin) in Hfresh. done.
Qed.

End JsMapFacts.

Section PresenceFacts.
Import JS Server.
Implicit Types (st : State) (m : JsMap.t SocketId) (sock : SocketId).

(** The loop either finds nothing, or deletes the key of an entry that
    holds the socket. *)
Lemma unregister_loop_cases sock es m :
  unregister_loop sock es m = m ∨
  ∃ userId, (userId, sock) ∈ es ∧ unregister_loop sock es m = JsMap.delete userId m.
Proof.
  induction es as [|[userId socketId] es IH]; simpl; [by left|].
  destruct (String.eqb socketId sock) eqn:E.
  - apply String.eqb_eq in E as ->. right. exists userId. split; [left|done].
  - destruct IH as [IH|(u & Hin & IH)]; [by left|].
    right. exists u. split; [by right|done].
Qed.

Lemma keys_unique_unregister sock m :
  JsMap.keys_unique m →
  JsMap.keys_unique (unregister_loop sock (JsMap.entries m) m).
Proof.
  intros Hm.
  destruct (unregister_loop_cases sock (JsMap.entries m) m) as [->|(u & _ & ->)];
    [done | by apply keys_unique_delete].
Qed.

(** A disconnect touches the entry of [k] only if that entry holds the
    disconnecting socket. *)
Lemma unregister_changes sock k m :
  JsMap.keys_unique m →
  JsMap.get k (unregister_loop sock (JsMap.entries m) m) ≠ JsMap.get k m →
  JsMap.get k m = Some sock.
Proof.
  intros Hm Hne.
  destruct (unregister_loop_cases sock (JsMap.entries m) m) as [E|(u & Hin & E)];
    rewrite E in Hne; [done|].
  destruct (strict_eq u k) eqn:Huk.
  - rewrite <-(get_congr _ _ _ Huk). by apply get_entry.
  - by rewrite get_delete_other in Hne.
Qed.

(** What a handler that returned has done to the state. *)
Lemma step_returned st ev st' ds :
  step st ev = Returned (st', ds) →
  match ev with
  | Connection sock => st' = connection sock st
  | RegisterUser sock userId =>
      st' = registerUser sock userId st ∧ (truthy userId = true → printable userId = true)
  | JoinRoom sock room => st' = joinRoom sock room st ∧ printable room = true
  | LeaveRoom sock room => st' = leaveRoom sock room st ∧ printable room = true
  | SendMessage sock data => st' = st
  | Disconnect sock => st' = disconnect sock st
  end.
Proof.
  destruct ev; simpl.
  - by intros [= <- _].
  - unfold on_registerUser, registerUser.
    destruct (truthy userId); [|by intros [= <- _]].
    destruct (printable userId); [by intros [= <- _] | done].
  - unfold on_joinRoom. destruct (printable roomId0); [by intros [= <- _] | done].
  - unfold on_leaveRoom. destruct (printable roomId0); [by intros [= <- _] | done].
  - unfold sendMessage. destruct (destructure data) as [msg|]; [|done].
    destruct (loggable msg); [by intros [= <- _] | done].
  - unfold on_disconnect.
    destruct (unregistered sock _) as [u|]; [|by intros [= <- _]].
    destruct (printable u); [by intros [= <- _] | done].
Qed.

Lemma keys_unique_step st ev st' ds :
  JsMap.keys_unique (userSocketMap st) →
  step st ev = Returned (st', ds) →
  JsMap.keys_unique (userSocketMap st').
Proof.
  intros Hst Hstep%step_returned. destruct ev; simpl in Hstep.
  - by subst.
  - destruct Hstep as [-> _]. unfold registerUser.
    destruct (truthy userId); [by apply keys_unique_set | done].
  - by destruct Hstep as [-> _].
  - by destruct Hstep as [-> _].
  - by subst.
  - subst. by apply keys_unique_unregister.
Qed.

Lemma keys_unique_run evs st st' :
  JsMap.keys_unique (userSocketMap st) →
  run evs st = Returned st' →
  JsMap.keys_unique (userSocketMap st').
Proof.
  revert st. induction evs as [|ev evs IH]; simpl; intros st Hst.
  - by intros [= <-].
  - destruct (step st ev) as [[st1 ds]|] eqn:E; [|done].
    apply IH. by eapply keys_unique_step.
Qed.

Lemma lookup_disconnect user sock s st :
  JsMap.keys_unique (userSocketMap st) →
  s ≠ sock →
  lookup user st = Some sock →
  lookup user (disconnect s st) = Some sock.
Proof.
  unfold lookup. intros Hst Hne Hget. simpl.
  destruct (decide (JsMap.get user
    (unregister_loop s (JsMap.entries (userSocketMap st)) (userSocketMap st))
    = JsMap.get user (userSocketMap st))) as [->|Hch]; [done|].
  apply unregister_changes in Hch; [|done]. congruence.
Qed.

Lemma lookup_step user sock st ev st' ds :
  JsMap.keys_unique (userSocketMap st) →
  leaves_alone user sock ev = true →
  lookup user st = Some sock →
  step st ev = Returned (st', ds) →
  lookup user st' = Some sock.
Proof.
  unfold lookup. intros Hst Hev Hget Hstep%step_returned.
  destruct ev; simpl in *.
  - by subst.
  - destruct Hstep as [-> _]. unfold registerUser.
    destruct (truthy userId); simpl; [|done].
    rewrite get_set_ne; [done|]. by apply negb_true_iff.
  - by destruct Hstep as [-> _].
  - by destruct Hstep as [-> _].
  - by subst.
  - subst. apply lookup_disconnect; [done | | done].
    by apply negb_true_iff, String.eqb_neq in Hev.
Qed.

Lemma lookup_run user sock evs st st' :
  JsMap.keys_unique (userSocketMap st) →
  forallb (leaves_alone user sock) evs = true →
  lookup user st = Some sock →
  run evs st = Returned st' →
  lookup user st' = Some sock.
Proof.
  revert st. induction evs as [|ev evs IH]; simpl; intros st Hst Hevs Hget.
  - by intros [= <-].
  - apply andb_prop in Hevs as [Hev Hevs].
    destruct (step st ev) as [[st1 ds]|] eqn:E; [|done].
    apply IH; [by eapply keys_unique_step | done | by eapply lookup_step].
Qed.

(** C2: in any state the relay can reach, once a user has registered
    connection [c1] and, whatever happened in between, then [c2], looking
    the user up yields [c2]; the disconnect of the superseded [c1], and
    any later events that neither register the user again nor disconnect
    [c2], leave that entry as it is; and a disconnect changes the entry of
    a user only when the entry holds the disconnecting connection. *)
Theorem presence_last_writer_wins
    (history between : list Event) (st0 st1 : State) (user : Value)
    (c1 c2 : SocketId) :
  run history initial = Returned st0 →
  run (RegisterUser c1 user :: between) st0 = Returned st1 →
  truthy user = true →
  c1 ≠ c2 →
  lookup user (registerUser c2 user st1) = Some c2 ∧
  lookup user (disconnect c1 (registerUser c2 user st1)) = Some c2 ∧
  (∀ later st,
      forallb (leaves_alone user c2) later = true →
      run later (registerUser c2 user st1) = Returned st →
      lookup user st = Some c2) ∧
  (∀ sock k,
      lookup k (disconnect sock st1) ≠ lookup k st1 → lookup k st1 = Some sock).
Proof.
  intros Hreach Hbetween Huser Hc.
  assert (JsMap.keys_unique (userSocketMap st1)) as Hst1.
  { apply (keys_unique_run (RegisterUser c1 user :: between) st0 st1); [|done].
    by apply (keys_unique_run history initial st0). }
  set (st2 := registerUser c2 user st1).
  assert (lookup user st2 = Some c2) as Hget.
  { unfold st2, registerUser, lookup. rewrite Huser; simpl. apply get_set_eq. }
  assert (JsMap.keys_unique (userSocketMap st2)) as Hst2.
  { unfold st2, registerUser. rewrite Huser; simpl. by apply keys_unique_set. }
  assert (∀ later st,
      forallb (leaves_alone user c2) later = true →
      run later st2 = Returned st → lookup user st = Some c2) as Hlater.
  { intros later st Hl Hrun. by eapply lookup_run. }
  split_and!; [done | | done |].
  - by apply lookup_disconnect.
  - intros sock k. by apply unregister_changes.
Qed.

Lemma presence_last_writer_wins_witness :
  lookup (Str "ann") (registerUser "s2" (Str "ann") Sample.relay) = Some "s2" ∧
  lookup (Str "ann") (disconnect "s1" (registerUser "s2" (Str "ann") Sample.relay))
  = Some "s2" ∧
  (∀ later st,
      forallb (leaves_alone (Str "ann") "s2") later = true →
      run later (registerUser "s2" (Str "ann") Sample.relay) = Returned st →
      lookup (Str "ann") st = Some "s2") ∧
  (∀ sock k,
      lookup k (disconnect sock Sample.relay) ≠ lookup k Sample.relay →
      lookup k Sample.relay = Some sock).
Proof.
  apply (presence_last_writer_wins
           [Connection "s0"; RegisterUser "s0" (Str "bob"); Connection "s1"]
           [Connection "s2"; JoinRoom "s1" (Str "ann--bob")]
           (connection "s1" (registerUser "s0" (Str "bob") (connection "s0" initial)))
           Sample.relay (Str "ann") "s1" "s2");
    [reflexivity | reflexivity | reflexivity | discriminate].
Defined.

Example presence_two_tabs :
  run [Connection "s1"; RegisterUser "s1" (Str "ann");
       Connection "s2"; RegisterUser "s2" (Str "ann"); Disconnect "s1"] initial
  = Returned {| userSocketMap := [(Str "ann", "s2")]; sockets := ["s2"];
                rooms := [("s2", Str "s2")] |}.
Proof. reflexivity. Qed.

(** C10: a [registerUser] event whose [userId] is falsy (absent, [null],
    empty, ...) leaves the presence map, and the whole state, as it was. *)
Theorem registerUser_falsy_ignored (st : State) (sock : SocketId) (userId : Value) :
  truthy userId = false →
  registerUser sock userId st = st ∧
  step st (RegisterUser sock userId) = Returned (st, []) ∧
  ∀ user, lookup user (registerUser sock userId st) = lookup user st.
Proof.
  intros Hfalsy. simpl. unfold on_registerUser, registerUser. by rewrite Hfalsy.
Qed.

Lemma registerUser_falsy_ignored_witness :
  let st := registerUser "s0" (Str "bob") (connection "s0" initial) in
  registerUser "s1" (Str "") st = st ∧
  step st (RegisterUser "s1" (Str "")) = Returned (st, []) ∧
  ∀ user, lookup user (registerUser "s1" (Str "") st) = lookup user st.
Proof.
  apply (registerUser_falsy_ignored _ "s1" (Str "")). reflexivity.
Defined.

(** The falsy values: absent, [null], [false], [0] and the empty string. *)
Lemma truthy_false_iff (v : Value) :
  truthy v = false ↔ v ∈ [Undefined; Null; Bool false; Num 0; Str ""].
Proof.
  rewrite !elem_of_cons, elem_of_nil. split.
  - destruct v as [| |[]|n|s| |]; simpl; try naive_solver.
    + intros ->%negb_false_iff%Z.eqb_eq. naive_solver.
    + intros ->%negb_false_iff%String.eqb_eq. naive_solver.
  - by intros [->|[->|[->|[->|[->|[]]]]]].
Qed.

End PresenceFacts.

Section ListFacts.
Import Server.

Lemma NoDup_list_filter {A} (f : A → bool) (l : list A) :
  NoDup l → NoDup (List.filter f l).
Proof.
  induction 1 as [|x l Hx _ IH]; simpl; [constructor|].
  destruct (f x); [|done]. apply NoDup_cons. split; [|done].
  intros [Hin _]%list_elem_of_In%filter_In. by apply Hx, list_elem_of_In.
Qed.

Lemma list_filter_comm {A} (f g : A → bool) (l : list A) :
  List.filter f (List.filter g l) = List.filter g (List.filter f l).
Proof.
  induction l as [|x l IH]; simpl; [done|].
  destruct (f x) eqn:Hf, (g x) eqn:Hg; simpl; rewrite ?Hf, ?Hg, IH; done.
Qed.

Lemma elem_of_list_filter {A} (f : A → bool) (l : list A) x :
  x ∈ List.filter f l ↔ x ∈ l ∧ f x = true.
Proof.
  split.
  - intros [Hin Hx]%list_elem_of_In%filter_In. by rewrite list_elem_of_In.
  - intros [Hin Hx]. apply list_elem_of_In, filter_In. by rewrite <-list_elem_of_In.
Qed.

Lemma list_filter_absorb {A} (f g : A → bool) (l : list A) :
  (∀ x, f x = true → g x = true) →
  List.filter f (List.filter g l) = List.filter f l.
Proof.
  intros Hfg. induction l as [|x l IH]; simpl; [done|].
  destruct (g x) eqn:Hg; simpl.
  - destruct (f x); by rewrite IH.
  - destruct (f x) eqn:Hf; [|done]. apply Hfg in Hf. congruence.
Qed.

Lemma list_filter_concat {A} (f : A → bool) (ls : list (list A)) :
  List.filter f (concat ls) = concat (List.filter f <$> ls).
Proof.
  induction ls as [|l ls IH]; simpl; [done|]. by rewrite List.filter_app, IH.
Qed.

Lemma elem_of_dedupe c (l : list SocketId) : c ∈ dedupe l ↔ c ∈ l.
Proof.
  induction l as [|a l IH]; simpl; [done|].
  rewrite !elem_of_cons, elem_of_list_filter, IH. split.
  - intros [->|[Hin _]]; [by left | by right].
  - intros [->|Hin]; [by left|].
    destruct (String.eqb_spec c a) as [->|Hne]; [by left|].
    by right.
Qed.

Lemma NoDup_dedupe (l : list SocketId) : NoDup (dedupe l).
Proof.
  induction l as [|a l IH]; simpl; [constructor|].
  apply NoDup_cons. split; [|by apply NoDup_list_filter].
  intros [_ Ha]%elem_of_list_filter. by rewrite String.eqb_refl in Ha.
Qed.

Lemma dedupe_filter (f : SocketId → bool) (l : list SocketId) :
  dedupe (List.filter f l) = List.filter f (dedupe l).
Proof.
  induction l as [|a l IH]; simpl; [done|].
  destruct (f a) eqn:Ha; simpl.
  - by rewrite IH, list_filter_comm.
  - rewrite IH. symmetry. apply list_filter_absorb.
    intros x Hx. apply negb_true_iff, String.eqb_neq. congruence.
Qed.

End ListFacts.

(** ** The relay dispatcher *)

Section DispatchFacts.
Import JS Server.
Implicit Types (st : State) (sock : SocketId) (data : Value).

Lemma elem_of_membersOf c room (rs : list (SocketId * Value)) :
  c ∈ membersOf room rs ↔ ∃ r, (c, r) ∈ rs ∧ strict_eq r room = true.
Proof.
  unfold membersOf. rewrite list_elem_of_fmap. split.
  - intros ([c' r] & -> & Hin). apply list_elem_of_In, filter_In in Hin as [Hin Hr].
    exists r. by rewrite list_elem_of_In.
  - intros (r & Hin & Hr). exists (c, r). split; [done|].
    apply list_elem_of_In, filter_In. by rewrite <-list_elem_of_In.
Qed.

Lemma in_room_membersOf c room (rs : list (SocketId * Value)) :
  in_room c room rs = true ↔ c ∈ membersOf room rs.
Proof.
  rewrite elem_of_membersOf. unfold in_room. rewrite existsb_exists. split.
  - intros ([s r] & Hin & [->%String.eqb_eq Hr]%andb_prop).
    exists r. by rewrite list_elem_of_In.
  - intros (r & Hin & Hr). exists (c, r). rewrite <-list_elem_of_In.
    split; [done|]. by rewrite String.eqb_refl.
Qed.

Lemma in_room_true s r (rs : list (SocketId * Value)) :
  in_room s r rs = true ↔ ∃ r0, (s, r0) ∈ rs ∧ strict_eq r0 r = true.
Proof. by rewrite in_room_membersOf, elem_of_membersOf. Qed.

Lemma elem_of_members_of_each c (ts : list Value) (rs : list (SocketId * Value)) :
  c ∈ concat ((λ t, membersOf t rs) <$> ts) ↔
  ∃ r t, (c, r) ∈ rs ∧ t ∈ ts ∧ strict_eq r t = true.
Proof.
  induction ts as [|t ts IH]; simpl.
  - split; [by intros ?%elem_of_nil | by intros (r & t & _ & ?%elem_of_nil & _)].
  - rewrite elem_of_app, IH, elem_of_membersOf. split.
    + intros [(r & Hin & Hr)|(r & t' & Hin & Ht & Hr)].
      * exists r, t. split_and!; [done | left | done].
      * exists r, t'. split_and!; [done | by right | done].
    + intros (r & t' & Hin & [->|Ht]%elem_of_cons & Hr).
      * left. by exists r.
      * right. by exists r, t'.
Qed.

Lemma recipients_fmap ev msg (l : list SocketId) :
  recipient <$> ((λ c, {| recipient := c; event := ev; payload := msg |}) <$> l) = l.
Proof. induction l as [|c l IH]; [done|]. by f_equal/=. Qed.

Lemma recipients_to_emit_eq sock room ev msg (rs : list (SocketId * Value)) :
  recipient <$> to_emit sock room ev msg rs
  = List.filter (λ c, negb (String.eqb c sock))
      (dedupe (concat ((λ t, membersOf t rs) <$> rooms_of room))).
Proof. unfold to_emit. apply recipients_fmap. Qed.

Lemma recipients_broadcast_eq sock ev msg (live : list SocketId) :
  recipient <$> broadcast_emit sock ev msg live
  = List.filter (λ c, negb (String.eqb c sock)) live.
Proof. unfold broadcast_emit. apply recipients_fmap. Qed.

Lemma recipients_to_emit sock room ev msg (rs : list (SocketId * Value)) c :
  c ∈ recipient <$> to_emit sock room ev msg rs ↔
  (∃ r t, (c, r) ∈ rs ∧ t ∈ rooms_of room ∧ strict_eq r t = true) ∧ c ≠ sock.
Proof.
  rewrite recipients_to_emit_eq, elem_of_list_filter, elem_of_dedupe,
    elem_of_members_of_each.
  by rewrite negb_true_iff, String.eqb_neq.
Qed.

Lemma recipients_broadcast sock ev msg (live : list SocketId) c :
  c ∈ recipient <$> broadcast_emit sock ev msg live ↔ c ∈ live ∧ c ≠ sock.
Proof.
  rewrite recipients_broadcast_eq, elem_of_list_filter.
  by rewrite negb_true_iff, String.eqb_neq.
Qed.

Lemma rooms_of_not_array room : is_array room = false → rooms_of room = [room].
Proof. by destruct room. Qed.

(** What [socket.to(room).emit] from [sock] reaches: the live sockets
    when [room] names no room, else the sockets in a room it names. *)
Lemma recipients_emit_to sock room ev msg live (rs : list (SocketId * Value)) c :
  c ∈ recipient <$> emit_to sock room ev msg live rs ↔
  c ≠ sock ∧
  if rooms_of room is [] then c ∈ live
  else ∃ r t, (c, r) ∈ rs ∧ t ∈ rooms_of room ∧ strict_eq r t = true.
Proof.
  unfold emit_to. destruct (rooms_of room) as [|t ts] eqn:E.
  - rewrite recipients_broadcast. by split; intros [??].
  - rewrite recipients_to_emit, E. by split; intros [??].
Qed.

Lemma emit_to_deliveries sock room ev msg live (rs : list (SocketId * Value)) d :
  d ∈ emit_to sock room ev msg live rs → event d = ev ∧ payload d = msg.
Proof.
  unfold emit_to, broadcast_emit, to_emit.
  destruct (rooms_of room); rewrite list_elem_of_fmap; by intros (c & -> & _).
Qed.

(** Joining is idempotent, and who left a room is not in it. *)
Lemma join_idempotent c room (rs : list (SocketId * Value)) :
  join c room (join c room rs) = join c room rs.
Proof.
  unfold join at 1.
  assert (in_room c room (join c room rs) = true) as ->; [|done].
  unfold join. destruct (in_room c room rs) eqn:E; [done|].
  unfold in_room. rewrite existsb_app; simpl.
  by rewrite String.eqb_refl, strict_eq_refl, orb_true_r.
Qed.

Lemma leave_not_member c room (rs : list (SocketId * Value)) :
  c ∉ membersOf room (leave c room rs).
Proof.
  rewrite elem_of_membersOf. intros (r & Hin & Hr).
  apply list_elem_of_In, filter_In in Hin as [_ Hkeep].
  by rewrite String.eqb_refl, Hr in Hkeep.
Qed.

Lemma in_room_app sock room (rs rs' : list (SocketId * Value)) :
  in_room sock room (rs ++ rs') = in_room sock room rs || in_room sock room rs'.
Proof. unfold in_room. apply existsb_app. Qed.

Lemma in_room_congr sock r r' (rs : list (SocketId * Value)) :
  strict_eq r r' = true → in_room sock r rs = in_room sock r' rs.
Proof.
  intros Hr. unfold in_room. induction rs as [|[s r0] rs IH]; simpl; [done|].
  by rewrite IH, (strict_eq_sym r0 r), (strict_eq_congr _ _ r0 Hr), (strict_eq_sym r' r0).
Qed.

Lemma in_room_join s' r' s r (rs : list (SocketId * Value)) :
  in_room s' r' (join s r rs)
  = in_room s' r' rs || (String.eqb s s' && strict_eq r r').
Proof.
  unfold join. destruct (in_room s r rs) eqn:E.
  - destruct (String.eqb_spec s s') as [->|]; simpl; [|by rewrite orb_false_r].
    destruct (strict_eq r r') eqn:Hr; [|by rewrite orb_false_r].
    by rewrite <-(in_room_congr s' r r' rs Hr), E.
  - rewrite in_room_app. f_equal. unfold in_room; simpl. by rewrite orb_false_r.
Qed.

(** [socket.join] puts the socket in each room its argument names and
    takes nobody out. *)
Lemma in_room_join_each s' r' s room (rs : list (SocketId * Value)) :
  in_room s' r' (join_each s room rs)
  = in_room s' r' rs
    || (String.eqb s s' && existsb (λ t, strict_eq t r') (rooms_of room)).
Proof.
  unfold join_each. revert rs.
  induction (rooms_of room) as [|t ts IH]; intros rs; simpl.
  - by rewrite andb_false_r, orb_false_r.
  - rewrite IH, in_room_join. destruct (String.eqb s s'); simpl.
    + by rewrite orb_assoc.
    + by rewrite !orb_false_r.
Qed.

(** A payload other than [undefined] and [null] destructures, whatever
    it lacks. *)
Lemma destructure_returns data :
  data ≠ Undefined → data ≠ Null → ∃ msg, destructure data = Returned msg.
Proof. destruct data; intros ??; try done; by eexists. Qed.


(** C3: for a payload that the handler can destructure and log, the
    [sendMessage] handler returns with the state as it was and sends the
    payload, as [receiveMessage], to exactly the connections that hold a
    membership in the room of the message, the sending connection
    excepted; when [roomId] is an array, the room is any of the rooms it
    lists, and every live connection when it lists none. A connection
    that has just joined the room is among the recipients; the sender
    never is. *)
Theorem sendMessage_fanout (st : State) (sock : SocketId) (data : Value)
    (msg : RelayedMessage) :
  destructure data = Returned msg →
  loggable msg = true →
  ∃ ds,
    sendMessage sock data st = Returned (st, ds) ∧
    (is_array (roomId msg) = false →
     ∀ c, c ∈ recipient <$> ds ↔
          (∃ r, (c, r) ∈ rooms st ∧ strict_eq r (roomId msg) = true) ∧ c ≠ sock) ∧
    (∀ c, c ∈ recipient <$> ds ↔
          c ≠ sock ∧
          if rooms_of (roomId msg) is [] then c ∈ sockets st
          else ∃ r t, (c, r) ∈ rooms st ∧ t ∈ rooms_of (roomId msg) ∧
                      strict_eq r t = true) ∧
    (∀ d, d ∈ ds → event d = "receiveMessage" ∧ payload d = msg) ∧
    (sock ∉ recipient <$> ds) ∧
    (∀ c, c ≠ sock → rooms_of (roomId msg) ≠ [] →
          ∃ ds', sendMessage sock data (joinRoom c (roomId msg) st)
                 = Returned (joinRoom c (roomId msg) st, ds') ∧
                 c ∈ recipient <$> ds').
Proof.
  intros Hdata Hlog. unfold sendMessage. rewrite Hdata, Hlog.
  eexists. split_and!; [done|..].
  - intros Hroom c. rewrite recipients_emit_to, (rooms_of_not_array _ Hroom). split.
    + intros (Hne & r & t & Hin & ->%list_elem_of_singleton & Hr). split; [by exists r | done].
    + intros [(r & Hin & Hr) Hne]. split; [done|].
      exists r, (roomId msg). by rewrite list_elem_of_singleton.
  - intros c. apply recipients_emit_to.
  - intros d. apply emit_to_deliveries.
  - rewrite recipients_emit_to. by intros [Hne _].
  - intros c Hne Hrooms. eexists. split; [done|].
    rewrite recipients_emit_to. split; [done|].
    destruct (rooms_of (roomId msg)) as [|t ts] eqn:E; [done|].
    assert (in_room c t (rooms (joinRoom c (roomId msg) st)) = true)
      as (r & Hin & Hr)%in_room_true.
    { simpl. rewrite in_room_join_each, E, String.eqb_refl. simpl.
      by rewrite strict_eq_refl, orb_true_r. }
    exists r, t. split_and!; [done | left | done].
Qed.

Lemma sendMessage_fanout_witness :
  let st := joinRoom "s2" (Str "a--b") (joinRoom "s1" (Str "a--b")
              (connection "s3" (connection "s2" (connection "s1" initial)))) in
  let msg := {| text := Str "hi"; roomId := Str "a--b"; senderId := Str "a" |} in
  let data := Obj 1 [("text", Str "hi"); ("roomId", Str "a--b"); ("senderId", Str "a")] in
  ∃ ds,
    sendMessage "s1" data st = Returned (st, ds) ∧
    (is_array (roomId msg) = false →
     ∀ c, c ∈ recipient <$> ds ↔
          (∃ r, (c, r) ∈ rooms st ∧ strict_eq r (roomId msg) = true) ∧ c ≠ "s1") ∧
    (∀ c, c ∈ recipient <$> ds ↔
          c ≠ "s1" ∧
          if rooms_of (roomId msg) is [] then c ∈ sockets st
          else ∃ r t, (c, r) ∈ rooms st ∧ t ∈ rooms_of (roomId msg) ∧
                      strict_eq r t = true) ∧
    (∀ d, d ∈ ds → event d = "receiveMessage" ∧ payload d = msg) ∧
    ("s1" ∉ recipient <$> ds) ∧
    (∀ c, c ≠ "s1" → rooms_of (roomId msg) ≠ [] →
          ∃ ds', sendMessage "s1" data (joinRoom c (roomId msg) st)
                 = Returned (joinRoom c (roomId msg) st, ds') ∧
                 c ∈ recipient <$> ds').
Proof.
  intros st msg data. apply (sendMessage_fanout st "s1" data msg); reflexivity.
Defined.

Example sendMessage_two_peers :
  let st := joinRoom "s2" (Str "a--b") (joinRoom "s1" (Str "a--b")
              (connection "s3" (connection "s2" (connection "s1" initial)))) in
  sendMessage "s1"
    (Obj 1 [("text", Str "hi"); ("roomId", Str "a--b"); ("senderId", Str "a")]) st
  = Returned (st, [ {| recipient := "s2"; event := "receiveMessage";
                       payload := {| text := Str "hi"; roomId := Str "a--b";
                                     senderId := Str "a" |} |} ]).
Proof. reflexivity. Qed.

(** A [roomId] that is an array names each room it lists; an empty one
    names none, and the message goes to every live socket but the
    sender's. *)
Example sendMessage_array_rooms :
  let st := joinRoom "s3" (Str "b--c") (joinRoom "s2" (Str "a--b")
              (connection "s4" (connection "s3" (connection "s2"
                 (connection "s1" initial))))) in
  RelayInvariants.reached "s1"
    (Obj 1 [("text", Str "hi");
            ("roomId", Arr 2 [Str "a--b"; Str "b--c"; Str "a--b"])]) st
  = ["s2"; "s3"] ∧
  RelayInvariants.reached "s1" (Obj 1 [("text", Str "hi"); ("roomId", Arr 2 [])]) st
  = ["s2"; "s3"; "s4"].
Proof. by split. Qed.


(** An absent payload makes the handler throw at the destructuring. *)
Example sendMessage_absent_payload_throws (st : State) (sock : SocketId) :
  step st (SendMessage sock Undefined) = Threw "TypeError" ∧
  step st (SendMessage sock Null) = Threw "TypeError".
Proof. done. Qed.

(** A value that cannot be converted to a string makes the handler that
    logs it throw, before it has done anything: an object with an own
    [toString], as JSON can carry it. *)
Example unprintable_argument_throws (st : State) (sock : SocketId) :
  let odd := Obj 2 [("toString", Null)] in
  step st (SendMessage sock
             (Obj 1 [("text", odd); ("roomId", Str "a--b"); ("senderId", Str "a")]))
  = Threw "TypeError" ∧
  step st (RegisterUser sock odd) = Threw "TypeError" ∧
  step st (JoinRoom sock odd) = Threw "TypeError" ∧
  step st (LeaveRoom sock (Arr 3 [Str "a--b"; odd])) = Threw "TypeError".
Proof. done. Qed.



End DispatchFacts.

(** ** The unread boundary *)

Section UnreadFacts.
Import Client.
Context {parser : DateParser}.
Implicit Types (msg : ChatMessage) (history : list ChatMessage).

Lemma findIndex_range {A} (p : A → bool) (l : list A) :
  findIndex p l = -1 ∨ 0 ≤ findIndex p l < Z.of_nat (length l).
Proof.
  induction l as [|x l IH]; simpl; [by left|].
  destruct (p x); [right; lia|].
  destruct (Z.ltb_spec (findIndex p l) 0); [by left | right; lia].
Qed.

Lemma findIndex_none {A} (p : A → bool) (l : list A) :
  findIndex p l = -1 ↔ ∀ x, x ∈ l → p x = false.
Proof.
  induction l as [|x l IH]; simpl.
  - split; [by intros _ ? ?%elem_of_nil | done].
  - destruct (p x) eqn:Hx.
    + split; [done|]. intros Hall. specialize (Hall x (list_elem_of_here _ _)).
      congruence.
    + destruct (findIndex_range p l) as [E|E];
        destruct (Z.ltb_spec (findIndex p l) 0); try lia.
      * split; [|done]. intros _ y [->|Hy]%elem_of_cons; [done|].
        by apply IH.
      * split; [lia|]. intros Hall.
        assert (findIndex p l = -1); [|lia].
        apply IH. intros y Hy. apply Hall. by right.
Qed.

Lemma findIndex_first {A} (p : A → bool) (l : list A) (i : nat) :
  findIndex p l = Z.of_nat i ↔
  (∃ x, l !! i = Some x ∧ p x = true) ∧
  (∀ j y, (j < i)%nat → l !! j = Some y → p y = false).
Proof.
  revert i. induction l as [|x l IH]; intros i; simpl.
  - split; [lia|]. by intros [(? & ? & _) _].
  - destruct (p x) eqn:Hx.
    + split.
      * intros Hi. assert (i = 0%nat) as -> by lia.
        split; [by exists x | intros; lia].
      * intros [_ Hbefore]. destruct i as [|i]; [done|].
        specialize (Hbefore 0%nat x ltac:(lia) eq_refl). congruence.
    + destruct (Z.ltb_spec (findIndex p l) 0) as [Hneg|Hpos].
      * split; [lia|]. intros [(y & Hy & Hpy) _].
        destruct i as [|i]; simpl in Hy; [congruence|].
        destruct (findIndex_range p l) as [E|E]; [|lia].
        rewrite findIndex_none in E.
        rewrite (E y) in Hpy; [done|]. by eapply list_elem_of_lookup_2.
      * destruct i as [|i].
        { split; [lia|]. intros [(y & [= ->] & Hpy) _]. congruence. }
        replace (Z.of_nat (S i)) with (Z.of_nat i + 1) by lia.
        rewrite Z.add_cancel_r, IH. simpl. split.
        -- intros [Hhit Hbefore]. split; [done|].
           intros [|j] y Hj; simpl; [by intros [= <-]|].
           apply Hbefore. lia.
        -- intros [Hhit Hbefore]. split; [done|].
           intros j y Hj Hy. apply (Hbefore (S j) y); [lia | done].
Qed.

(** Under the agreement of tag and sender id, the callback of
    [findIndex] tests exactly "later than [lastViewed] and sent by the
    peer". *)
(** [messageTime] takes the stored time of a message that has one, and
    the client's time of a message that has none. *)
Lemma messageTime_shown_at msg t : messageTime msg = Some t ↔ shown_at msg t.
Proof.
  unfold messageTime, truthy. split.
  - destruct (created_at msg) as [s|] eqn:Hs; simpl.
    + destruct (String.eqb_spec s "") as [->|Hne]; simpl.
      * intros Ht. apply client_time; [by right | done].
      * intros Ht. by apply (stored_time msg t s).
    + intros Ht. apply client_time; [by left | done].
  - intros [s Hs Hne Ht|[Hs|Hs] Ht]; rewrite Hs; simpl; [|done..].
    apply String.eqb_neq in Hne. by rewrite Hne.
Qed.

Lemma isFirstUnread_unread selfId lastViewed msg :
  sender_agrees selfId msg →
  isFirstUnread lastViewed msg = true ↔ unread selfId lastViewed msg.
Proof.
  unfold sender_agrees, isFirstUnread, unread. intros Hagree.
  setoid_rewrite <-messageTime_shown_at.
  destruct (messageTime msg) as [t|]; [|by split; [|intros [(? & ? & _) _]]].
  rewrite andb_true_iff, Z.ltb_lt, negb_true_iff. split.
  - intros [Ht Hme]. split; [by exists t|].
    intros Hself%Hagree. by rewrite Hself in Hme.
  - intros [(t' & [= <-] & Ht) Hpeer]. split; [done|].
    destruct (sender msg); [|done]. by destruct Hpeer; apply Hagree.
Qed.

(** The messages that the page builds carry a tag that agrees with
    their sender id. *)
Lemma formatRow_agrees uid row : sender_agrees uid (formatRow uid row).
Proof.
  unfold sender_agrees, formatRow; simpl.
  destruct (String.eqb_spec (sender_id row) uid); naive_solver.
Qed.

Lemma newMessage_agrees now_ts p : sender_agrees (pendingUserId p) (newMessage now_ts p).
Proof. by unfold sender_agrees. Qed.

Lemma received_agrees now_id now_ts relayed c selfId :
  currentUserRef c = Some selfId →
  Forall (sender_agrees selfId) (chatHistory c) →
  Forall (sender_agrees selfId)
    (chatHistory (receiveMessageHandler now_id now_ts relayed c)).
Proof.
  intros Hself Hall. unfold receiveMessageHandler. rewrite Hself; simpl.
  destruct (String.eqb_spec (msg_senderId relayed) selfId); [done|].
  destruct (same _ _); [|done]. simpl.
  apply Forall_app. split; [done|]. apply Forall_singleton.
  unfold sender_agrees; simpl. naive_solver.
Qed.

(** The last-viewed time is a reading of the clock, or [0]. *)
Lemma lastViewedTime_nonneg (c : State) :
  map_Forall (λ _ t, 0 ≤ t) (lastViewedTimestamps c) → 0 ≤ lastViewedTime c.
Proof.
  intros Hall. unfold lastViewedTime.
  destruct (currentRoomId c) as [r|]; [|done].
  destruct (String.eqb r ""); [done|].
  destruct (lastViewedTimestamps c !! r) as [t|] eqn:Hr; simpl; [|done].
  by apply (Hall r t).
Qed.

Lemma onFocus_nonneg (now : Z) (c : State) :
  0 ≤ now →
  map_Forall (λ _ t, 0 ≤ t) (lastViewedTimestamps c) →
  map_Forall (λ _ t, 0 ≤ t) (lastViewedTimestamps (onFocus now c)).
Proof.
  intros Hnow Hall. unfold onFocus.
  destruct (currentRoomId c) as [r|]; [|done].
  destruct (String.eqb r ""); [done|]. simpl.
  by apply map_Forall_insert_2.
Qed.

Lemma lastViewedTime_onFocus (now : Z) (c : State) :
  truthy (currentRoomId c) = true → lastViewedTime (onFocus now c) = now.
Proof.
  unfold truthy, lastViewedTime, onFocus.
  destruct (currentRoomId c) as [r|] eqn:Hroom; [|done].
  intros Hr%negb_true_iff. rewrite Hr. simpl. rewrite Hr.
  by rewrite lookup_insert_eq.
Qed.

(** C7, amended: with no last view ([lastViewed = 0]) there is no
    boundary ([-1]); otherwise [firstUnreadIndex] is the index of the
    first message, in sequence order, that was sent by the peer and whose
    time is later than [lastViewed], where the time of a message is its
    stored [created_at] when it carries a non-empty one and the client's
    own [timestamp] when it does not; it is [-1] when no message is
    such. The function only reads its arguments. *)
Theorem firstUnreadIndex_spec (selfId : string) (lastViewed : Z)
    (history : list ChatMessage) :
  0 ≤ lastViewed →
  Forall (sender_agrees selfId) history →
  (lastViewed = 0 → firstUnreadIndexOf lastViewed history = -1) ∧
  (lastViewed ≠ 0 →
     (∀ i : nat,
         firstUnreadIndexOf lastViewed history = Z.of_nat i ↔
         (∃ msg, history !! i = Some msg ∧ unread selfId lastViewed msg) ∧
         (∀ j msg', (j < i)%nat → history !! j = Some msg' →
                    ¬ unread selfId lastViewed msg')) ∧
     (firstUnreadIndexOf lastViewed history = -1 ↔
      ∀ msg, msg ∈ history → ¬ unread selfId lastViewed msg) ∧
     (firstUnreadIndexOf lastViewed history = -1 ∨
      0 ≤ firstUnreadIndexOf lastViewed history < Z.of_nat (length history))).
Proof.
  intros Hnonneg Hagree. unfold firstUnreadIndexOf. split.
  - by intros ->.
  - intros Hne. destruct (Z.ltb_spec 0 lastViewed); [|lia].
    rewrite Forall_forall in Hagree.
    assert (∀ msg, msg ∈ history →
              isFirstUnread lastViewed msg = false ↔ ¬ unread selfId lastViewed msg)
      as Hfalse.
    { intros msg Hin. rewrite <-(isFirstUnread_unread selfId) by by apply Hagree.
      by destruct (isFirstUnread lastViewed msg). }
    split_and!.
    + intros i. rewrite findIndex_first. split.
      * intros [(msg & Hi & Hmsg) Hbefore]. split.
        -- exists msg. split; [done|].
           apply isFirstUnread_unread; [|done].
           by eapply Hagree, list_elem_of_lookup_2.
        -- intros j msg' Hj Hmsg'. apply Hfalse; [by eapply list_elem_of_lookup_2|].
           by eapply Hbefore.
      * intros [(msg & Hi & Hmsg) Hbefore]. split.
        -- exists msg. split; [done|].
           apply (isFirstUnread_unread selfId); [|done].
           by eapply Hagree, list_elem_of_lookup_2.
        -- intros j msg' Hj Hmsg'. apply Hfalse; [by eapply list_elem_of_lookup_2|].
           by eapply Hbefore.
    + rewrite findIndex_none. split.
      * intros Hall msg Hin. apply Hfalse; [done | by apply Hall].
      * intros Hall msg Hin. apply Hfalse; [done | by apply Hall].
    + apply findIndex_range.
Qed.

End UnreadFacts.

(** ** Reconciliation on the client *)

Section ReconciliationFacts.
Import Client.
Context {parser : DateParser}.
Implicit Types (c : State) (p : Pending) (msg : ChatMessage)
  (prev : list ChatMessage).

(** C6: a live relay event from the peer for the active room appends
    exactly one entry, carrying the text, room and sender of the event,
    at the end of the local sequence, whose earlier entries stay as they
    are and where they are; an event sent by the client itself, or for
    another room than the active one, leaves the client as it was. *)
Theorem receiveMessage_appends (c : State) (now_id now_ts : Z) (relayed : Relayed) :
  (currentUserRef c ≠ Some (msg_senderId relayed) →
   currentRoomIdRef c = Some (msg_roomId relayed) →
   ∃ msg,
     chatHistory (receiveMessageHandler now_id now_ts relayed c)
     = chatHistory c ++ [msg] ∧
     text msg = msg_text relayed ∧ roomId msg = msg_roomId relayed ∧
     senderId msg = msg_senderId relayed ∧ sender msg = other) ∧
  (currentUserRef c = Some (msg_senderId relayed) →
   receiveMessageHandler now_id now_ts relayed c = c) ∧
  (currentRoomIdRef c ≠ Some (msg_roomId relayed) →
   receiveMessageHandler now_id now_ts relayed c = c).
Proof.
  unfold receiveMessageHandler. split_and!.
  - intros Hpeer Hroom. rewrite Hroom; simpl. rewrite String.eqb_refl.
    destruct (currentUserRef c) as [uid|] eqn:Href; simpl; [|eexists; by split_and!].
    destruct (String.eqb_spec (msg_senderId relayed) uid) as [Heq|]; [congruence|].
    eexists; by split_and!.
  - intros ->; simpl. by rewrite String.eqb_refl.
  - intros Hroom. destruct (same (msg_senderId relayed) _); [done|].
    destruct (currentRoomIdRef c) as [r|] eqn:Href; simpl; [|done].
    destruct (String.eqb_spec (msg_roomId relayed) r) as [Heq|]; [congruence | done].
Qed.

Example receiveMessage_after_history :
  let c := {| message := ""; chatHistory := [];
              currentUserId := Some "b"; selectedChatId := Some "a";
              currentRoomId := Some "a--b"; isSocketConnected := true;
              lastViewedTimestamps := ∅;
              currentUserRef := Some "b"; currentRoomIdRef := Some "a--b";
              socket := Some [] |} in
  let m1 := {| id := "id1"; text := "hi"; sender := other; roomId := "a--b";
               timestamp := Some 5; senderId := "a"; created_at := Some "t5" |} in
  chatHistory
    (receiveMessageHandler 7 7
       {| msg_text := "yo"; msg_roomId := "a--b"; msg_senderId := "a" |}
       (setChatHistory (λ _, [m1]) c))
  = [m1; {| id := "a-7"; text := "yo"; sender := other; roomId := "a--b";
             timestamp := Some 7; senderId := "a"; created_at := None |}].
Proof. reflexivity. Qed.

(** The history query replaces the sequence by the stored rows, in their
    order; a live message of the peer then goes after the last of them. *)
Lemma fetchHistory_then_receive (c : State) (uid : string) (rows : list Row)
    (now_id now_ts : Z) (relayed : Relayed) :
  currentUserId c = Some uid → uid ≠ "" →
  currentUserRef c ≠ Some (msg_senderId relayed) →
  currentRoomIdRef c = Some (msg_roomId relayed) →
  ∃ msg,
    chatHistory (receiveMessageHandler now_id now_ts relayed
                   (fetchHistory (QueryData (Some rows)) c))
    = (formatRow uid <$> rows) ++ [msg] ∧
    text msg = msg_text relayed ∧ senderId msg = msg_senderId relayed.
Proof.
  intros Huid Hne%String.eqb_neq Hpeer Hroom.
  unfold fetchHistory, receiveMessageHandler. rewrite Huid, Hne; simpl.
  rewrite Hroom; simpl. rewrite String.eqb_refl.
  destruct (currentUserRef c) as [self|] eqn:Href; simpl; [|by eexists].
  destruct (String.eqb_spec (msg_senderId relayed) self) as [Heq|]; [congruence|].
  by eexists.
Qed.

Lemma filter_temp_fresh (t : string) prev :
  Forall (λ msg, id msg ≠ t) prev →
  List.filter (λ msg, negb (String.eqb (id msg) t)) prev = prev.
Proof.
  induction 1 as [|msg prev Hmsg _ IH]; simpl; [done|].
  apply String.eqb_neq in Hmsg. by rewrite Hmsg, IH.
Qed.

Lemma filter_temp_gone (t : string) prev msg :
  msg ∈ List.filter (λ msg, negb (String.eqb (id msg) t)) prev → id msg ≠ t.
Proof.
  intros [_ Hne]%list_elem_of_In%filter_In.
  by apply negb_true_iff, String.eqb_neq in Hne.
Qed.

(** What a passed guard leaves behind at the [await]. *)
Lemma submit_Some now_id now_ts c p c1 :
  submit now_id now_ts c = Some (p, c1) →
  is_Some (socket c) ∧
  messageText p = message c ∧
  c1 = setChatHistory (λ prev, prev ++ [newMessage now_ts p]) (setMessage "" c).
Proof.
  unfold submit.
  destruct (socket c), (currentRoomId c), (currentUserId c); try done.
  destruct (_ && _); [|done]. by intros [= <- <-].
Qed.

(** C1: when the persistence write of a send fails (an error result or a
    rejected promise), the optimistic message, which the send had put at
    the end of the displayed sequence, is no longer in it, the input
    holds the composed text again and nothing went out on the socket;
    the temporary id being new to the sequence, the sequence, and the
    whole client state, is what it was before the send. *)
Theorem handleSend_persistence_failure
    (c : State) (now_id now_ts : Z) (result : InsertResult) (p : Pending) (c1 : State) :
  submit now_id now_ts c = Some (p, c1) →
  failed result = true →
  chatHistory c1 = chatHistory c ++ [newMessage now_ts p] ∧
  (∀ msg, msg ∈ chatHistory (handleSend now_id now_ts result c) → id msg ≠ tempId p) ∧
  message (handleSend now_id now_ts result c) = message c ∧
  socket (handleSend now_id now_ts result c) = socket c ∧
  (Forall (λ msg, id msg ≠ tempId p) (chatHistory c) →
   chatHistory (handleSend now_id now_ts result c) = chatHistory c ∧
   handleSend now_id now_ts result c = c).
Proof.
  intros Hsubmit Hfailed. unfold handleSend. rewrite Hsubmit.
  apply submit_Some in Hsubmit as (_ & Htext & ->).
  assert (settle p result
            (setChatHistory (λ prev, prev ++ [newMessage now_ts p]) (setMessage "" c))
          = revert p
            (setChatHistory (λ prev, prev ++ [newMessage now_ts p]) (setMessage "" c)))
    as -> by by destruct result.
  assert (∀ prev, Forall (λ msg, id msg ≠ tempId p) prev →
            List.filter (λ msg, negb (String.eqb (id msg) (tempId p)))
              (prev ++ [newMessage now_ts p]) = prev) as Hfilter.
  { intros prev Hfresh. rewrite List.filter_app, filter_temp_fresh by done.
    simpl. rewrite String.eqb_refl. apply app_nil_r. }
  split_and!; [done | | done | done |].
  - intros msg. apply filter_temp_gone.
  - intros Hfresh. split; [by apply Hfilter|].
    unfold revert, setMessage, setChatHistory; simpl.
    rewrite Hfilter, Htext by done. by destruct c.
Qed.

(** A send that does not pass the guard changes nothing. *)
Lemma handleSend_guard now_id now_ts result c :
  submit now_id now_ts c = None → handleSend now_id now_ts result c = c.
Proof. unfold handleSend. by intros ->. Qed.

(** A successful write: the sequence is mapped through
    [confirmMessage], then the message goes out on the socket, once. *)
Lemma settle_stored p ins c sent :
  socket c = Some sent →
  chatHistory (settle p (InsertData (Some ins)) c)
  = confirmMessage (tempId p) ins <$> chatHistory c ∧
  socket (settle p (InsertData (Some ins)) c)
  = Some (sent ++ [sendMessage (messageText p) (pendingRoomId p) (pendingUserId p)]) ∧
  message (settle p (InsertData (Some ins)) c) = message c.
Proof.
  intros Hsocket. unfold settle; simpl. rewrite Hsocket; simpl.
  by rewrite Hsocket.
Qed.

(** C8: confirming the optimistic message that carries the temporary id
    keeps the length of the sequence, puts the stored id and timestamp
    on the entry at its position, every other field of it kept, and
    leaves every entry with another id unchanged at its position. *)
Theorem confirm_in_place
    (c : State) (p : Pending) (ins : Inserted) (i : nat) (msg : ChatMessage) :
  is_Some (socket c) →
  chatHistory c !! i = Some msg →
  id msg = tempId p →
  length (chatHistory (settle p (InsertData (Some ins)) c)) = length (chatHistory c) ∧
  (∃ msg',
      chatHistory (settle p (InsertData (Some ins)) c) !! i = Some msg' ∧
      id msg' = inserted_id ins ∧
      timestamp msg' = date_parse (inserted_created_at ins) ∧
      created_at msg' = Some (inserted_created_at ins) ∧
      text msg' = text msg ∧ sender msg' = sender msg ∧
      roomId msg' = roomId msg ∧ senderId msg' = senderId msg) ∧
  (∀ j msg',
      chatHistory c !! j = Some msg' → id msg' ≠ tempId p →
      chatHistory (settle p (InsertData (Some ins)) c) !! j = Some msg').
Proof.
  intros [sent Hsocket] Hi Hid.
  destruct (settle_stored p ins c sent Hsocket) as (-> & _ & _).
  split_and!.
  - apply length_fmap.
  - rewrite list_lookup_fmap, Hi; simpl. eexists. split; [done|].
    unfold confirmMessage. rewrite Hid, String.eqb_refl. by simpl.
  - intros j msg' Hj Hne. rewrite list_lookup_fmap, Hj; simpl.
    unfold confirmMessage. apply String.eqb_neq in Hne. by rewrite Hne.
Qed.

End ReconciliationFacts.

Section ReconciliationWitnesses.
Import Client.

(** C7, as stated, fails: a message that came in live carries no
    [created_at], so no message of this sequence has a [created_at] later
    than the last view, yet the boundary is drawn at it: its client
    [timestamp] is later. *)
Lemma firstUnreadIndex_counts_live_message :
  let live := {| id := "a-50"; text := "yo"; sender := other; roomId := "a--b";
                 timestamp := Some 50; senderId := "a"; created_at := None |} in
  firstUnreadIndexOf (parser := Sample.dates) 10 [live] = 0 ∧
  sender_agrees "b" live ∧
  (∀ msg, msg ∈ [live] → ¬ unread_by_created_at (parser := Sample.dates) "b" 10 msg) ∧
  firstUnreadIndexOf (parser := Sample.dates) 10 [live] ≠ -1.
Proof.
  split_and!; [done | done | | done].
  intros msg ->%list_elem_of_singleton [(s & t & Hs & _) _]. discriminate.
Qed.

Example firstUnreadIndex_mixed :
  firstUnreadIndexOf (parser := Sample.dates) 6 Sample.mixed = 1 ∧
  firstUnreadIndexOf (parser := Sample.dates) 9 Sample.mixed = 2 ∧
  firstUnreadIndexOf (parser := Sample.dates) 0 Sample.mixed = -1 ∧
  firstUnreadIndexOf (parser := Sample.dates) 12 Sample.mixed = -1.
Proof. done. Qed.

Example firstUnreadIndex_history :
  firstUnreadIndexOf (parser := Sample.dates) 6 Sample.history = 2 ∧
  firstUnreadIndexOf (parser := Sample.dates) 0 Sample.history = -1 ∧
  firstUnreadIndexOf (parser := Sample.dates) 12 Sample.history = -1.
Proof. done. Qed.

Lemma firstUnreadIndex_spec_witness :
  (6 = 0 → firstUnreadIndexOf (parser := Sample.dates) 6 Sample.mixed = -1) ∧
  (6 ≠ 0 →
     (∀ i : nat,
         firstUnreadIndexOf (parser := Sample.dates) 6 Sample.mixed = Z.of_nat i ↔
         (∃ msg, Sample.mixed !! i = Some msg ∧
                 unread (parser := Sample.dates) "b" 6 msg) ∧
         (∀ j msg', (j < i)%nat → Sample.mixed !! j = Some msg' →
                    ¬ unread (parser := Sample.dates) "b" 6 msg')) ∧
     (firstUnreadIndexOf (parser := Sample.dates) 6 Sample.mixed = -1 ↔
      ∀ msg, msg ∈ Sample.mixed → ¬ unread (parser := Sample.dates) "b" 6 msg) ∧
     (firstUnreadIndexOf (parser := Sample.dates) 6 Sample.mixed = -1 ∨
      0 ≤ firstUnreadIndexOf (parser := Sample.dates) 6 Sample.mixed
      < Z.of_nat (length Sample.mixed))).
Proof.
  apply (firstUnreadIndex_spec (parser := Sample.dates) "b" 6 Sample.mixed).
  - lia.
  - repeat constructor; discriminate.
Defined.

Lemma handleSend_persistence_failure_witness :
  chatHistory Sample.submitted
  = chatHistory Sample.page ++ [newMessage 7 Sample.pending] ∧
  (∀ msg, msg ∈ chatHistory (handleSend (parser := Sample.dates) 7 7 InsertError Sample.page) →
          id msg ≠ tempId Sample.pending) ∧
  message (handleSend (parser := Sample.dates) 7 7 InsertError Sample.page) = message Sample.page ∧
  socket (handleSend (parser := Sample.dates) 7 7 InsertError Sample.page) = socket Sample.page ∧
  (Forall (λ msg, id msg ≠ tempId Sample.pending) (chatHistory Sample.page) →
   chatHistory (handleSend (parser := Sample.dates) 7 7 InsertError Sample.page) = chatHistory Sample.page ∧
   handleSend (parser := Sample.dates) 7 7 InsertError Sample.page = Sample.page).
Proof.
  apply (handleSend_persistence_failure (parser := Sample.dates)
           Sample.page 7 7 InsertError Sample.pending Sample.submitted);
    reflexivity.
Defined.

Example handleSend_rejected :
  handleSend (parser := Sample.dates) 7 7 InsertRejected Sample.page = Sample.page.
Proof. reflexivity. Qed.

Example handleSend_stored :
  handleSend (parser := Sample.dates) 7 7 (InsertData (Some Sample.stored)) Sample.page
  = emit (sendMessage "hello" "a--b" "b")
      (setChatHistory
         (λ _, [Sample.earlier;
                {| id := "id2"; text := "hello"; sender := me; roomId := "a--b";
                   timestamp := Some 9; senderId := "b"; created_at := Some "t9" |}])
         (setMessage "" Sample.page)).
Proof. reflexivity. Qed.

Lemma confirm_in_place_witness :
  length (chatHistory
            (settle (parser := Sample.dates) Sample.pending
               (InsertData (Some Sample.stored)) Sample.submitted))
  = length (chatHistory Sample.submitted) ∧
  (∃ msg',
      chatHistory (settle (parser := Sample.dates) Sample.pending
                     (InsertData (Some Sample.stored)) Sample.submitted) !! 1%nat
      = Some msg' ∧
      id msg' = inserted_id Sample.stored ∧
      timestamp msg' = Sample.dates (inserted_created_at Sample.stored) ∧
      created_at msg' = Some (inserted_created_at Sample.stored) ∧
      text msg' = text (newMessage 7 Sample.pending) ∧
      sender msg' = sender (newMessage 7 Sample.pending) ∧
      roomId msg' = roomId (newMessage 7 Sample.pending) ∧
      senderId msg' = senderId (newMessage 7 Sample.pending)) ∧
  (∀ j msg',
      chatHistory Sample.submitted !! j = Some msg' → id msg' ≠ tempId Sample.pending →
      chatHistory (settle (parser := Sample.dates) Sample.pending
                     (InsertData (Some Sample.stored)) Sample.submitted) !! j
      = Some msg').
Proof.
  apply (confirm_in_place (parser := Sample.dates) Sample.submitted Sample.pending
           Sample.stored 1 (newMessage 7 Sample.pending));
    [by eexists | reflexivity | reflexivity].
Defined.

End ReconciliationWitnesses.

(** ** More on the relay *)

Section RelayFacts.
Import JS Server RelayInvariants.
Implicit Types (st : State) (sock : SocketId) (rs : list (SocketId * Value)).

(** What every event keeps holds in every state the relay reaches. *)
Lemma run_invariant (P : State → Prop) evs st st' :
  (∀ st ev st1 ds, P st → step st ev = Returned (st1, ds) → P st1) →
  P st → run evs st = Returned st' → P st'.
Proof.
  intros Hstep. revert st. induction evs as [|ev evs IH]; simpl; intros st Hst.
  - by intros [= <-].
  - destruct (step st ev) as [[st1 ds]|] eqn:E; [|done].
    apply IH. by eapply Hstep.
Qed.

Lemma in_room_filter sock room (f : SocketId * Value → bool) rs :
  in_room sock room (List.filter f rs) = true → in_room sock room rs = true.
Proof.
  unfold in_room. rewrite !existsb_exists.
  intros (x & [Hin _]%filter_In & Hx). by exists x.
Qed.

Lemma rooms_unique_filter (f : SocketId * Value → bool) rs :
  rooms_unique rs → rooms_unique (List.filter f rs).
Proof.
  induction rs as [|[s r] rs IH]; simpl; [done|].
  intros [Hfresh Hrs]. destruct (f (s, r)); simpl; [|by apply IH].
  split; [|by apply IH].
  destruct (in_room s r (List.filter f rs)) eqn:E; [|done].
  apply in_room_filter in E. congruence.
Qed.

Lemma rooms_unique_join sock room rs :
  rooms_unique rs → rooms_unique (join sock room rs).
Proof.
  unfold join. destruct (in_room sock room rs) eqn:Hnew; [done|].
  induction rs as [|[s r] rs IH]; simpl; [done|].
  intros [Hfresh Hrs]. simpl in Hnew. apply orb_false_elim in Hnew as [Hhead Hnew].
  split; [|by apply IH].
  rewrite in_room_app, Hfresh; simpl. rewrite orb_false_r.
  destruct (String.eqb_spec sock s) as [->|]; simpl; [|done].
  rewrite String.eqb_refl in Hhead; simpl in Hhead.
  by rewrite strict_eq_sym.
Qed.

Lemma rooms_unique_join_each sock room rs :
  rooms_unique rs → rooms_unique (join_each sock room rs).
Proof.
  unfold join_each. revert rs.
  induction (rooms_of room) as [|t ts IH]; intros rs Hrs; simpl; [done|].
  by apply IH, rooms_unique_join.
Qed.

(** No socket is twice in the same room, whatever the peers send. *)
Lemma rooms_unique_step st ev st' ds :
  rooms_unique (rooms st) → step st ev = Returned (st', ds) →
  rooms_unique (rooms st').
Proof.
  intros Hst Hstep%step_returned. destruct ev; simpl in Hstep.
  - subst. by apply rooms_unique_join.
  - destruct Hstep as [-> _]. unfold registerUser. by destruct (truthy userId).
  - destruct Hstep as [-> _]. by apply rooms_unique_join_each.
  - destruct Hstep as [-> _]. by apply rooms_unique_filter.
  - by subst.
  - subst. by apply rooms_unique_filter.
Qed.

Lemma sockets_unique_step st ev st' ds :
  sockets_unique st → step st ev = Returned (st', ds) → sockets_unique st'.
Proof.
  unfold sockets_unique. intros Hst Hstep%step_returned.
  destruct ev; simpl in Hstep.
  - subst. simpl. destruct (existsb _ _) eqn:E; [done|].
    apply NoDup_app. split_and!; [done | | apply NoDup_singleton].
    intros x Hx ->%list_elem_of_singleton.
    assert (existsb (String.eqb sock) (sockets st) = true); [|congruence].
    apply existsb_exists. exists sock. rewrite <-list_elem_of_In.
    split; [done | apply String.eqb_refl].
  - destruct Hstep as [-> _]. unfold registerUser. by destruct (truthy userId).
  - by destruct Hstep as [-> _].
  - by destruct Hstep as [-> _].
  - by subst.
  - subst. by apply NoDup_list_filter.
Qed.

(** X1: in every state the relay reaches, a [sendMessage] puts at most
    one [receiveMessage] on the wire per connection. *)
Theorem sendMessage_at_most_once
    (evs : list Event) (st st' : State) (sock : SocketId) (data : Value)
    (ds : list Delivery) :
  run evs initial = Returned st →
  sendMessage sock data st = Returned (st', ds) →
  NoDup (recipient <$> ds).
Proof.
  intros Hreach. unfold sendMessage.
  destruct (destructure data) as [msg|]; [|done].
  destruct (loggable msg); [|done]. intros [= _ <-].
  unfold emit_to. destruct (rooms_of (roomId msg)).
  - rewrite recipients_broadcast_eq. apply NoDup_list_filter.
    apply (run_invariant sockets_unique evs initial st);
      [apply sockets_unique_step | apply NoDup_nil_2 | done].
  - rewrite recipients_to_emit_eq. apply NoDup_list_filter, NoDup_dedupe.
Qed.

Lemma sendMessage_at_most_once_witness :
  NoDup (recipient <$>
           to_emit "s1" (Str "ann--bob") "receiveMessage"
             {| text := Str "hi"; roomId := Str "ann--bob"; senderId := Str "ann" |}
             (rooms (joinRoom "s0" (Str "ann--bob")
                       (joinRoom "s0" (Str "ann--bob") Sample.relay)))).
Proof.
  apply (sendMessage_at_most_once
           [Connection "s0"; RegisterUser "s0" (Str "bob"); Connection "s1";
            RegisterUser "s1" (Str "ann"); Connection "s2";
            JoinRoom "s1" (Str "ann--bob"); JoinRoom "s0" (Str "ann--bob");
            JoinRoom "s0" (Str "ann--bob")]
           (joinRoom "s0" (Str "ann--bob")
              (joinRoom "s0" (Str "ann--bob") Sample.relay))
           (joinRoom "s0" (Str "ann--bob")
              (joinRoom "s0" (Str "ann--bob") Sample.relay))
           "s1"
           (Obj 1 [("text", Str "hi"); ("roomId", Str "ann--bob");
                   ("senderId", Str "ann")]));
    reflexivity.
Defined.

Lemma set_entries {V} k (v : V) k0 v0 (m : JsMap.t V) :
  (k, v) ∈ JsMap.entries (JsMap.set k0 v0 m) →
  k = k0 ∨ ∃ v', (k, v') ∈ JsMap.entries m.
Proof.
  unfold JsMap.entries. induction m as [|[k1 v1] m IH]; simpl.
  - intros [= -> _]%list_elem_of_singleton. by left.
  - destruct (strict_eq k1 k0).
    + intros [[= -> _]|Hin]%elem_of_cons; right.
      * exists v1. left.
      * exists v. by right.
    + intros [[= -> ->]|Hin]%elem_of_cons.
      * right. exists v1. left.
      * destruct (IH Hin) as [->|[v' Hv']]; [by left|].
        right. exists v'. by right.
Qed.

Lemma delete_entries {V} k (v : V) k0 (m : JsMap.t V) :
  (k, v) ∈ JsMap.entries (JsMap.delete k0 m) → (k, v) ∈ JsMap.entries m.
Proof.
  unfold JsMap.entries. induction m as [|[k1 v1] m IH]; simpl; [done|].
  destruct (strict_eq k1 k0); [by right|].
  intros [[= -> ->]|Hin]%elem_of_cons; [left | right; by apply IH].
Qed.

Lemma unregistered_entry sock (es : list (Value * SocketId)) userId :
  unregistered sock es = Some userId → (userId, sock) ∈ es.
Proof.
  induction es as [|[u s] es IH]; simpl; [done|].
  destruct (String.eqb_spec s sock) as [->|_].
  - intros [= ->]. left.
  - intros Hu. right. by apply IH.
Qed.

(** Every user id in the presence map went through the log line of its
    registration. *)
Lemma keys_printable_step st ev st' ds :
  keys_printable (userSocketMap st) → step st ev = Returned (st', ds) →
  keys_printable (userSocketMap st').
Proof.
  unfold keys_printable. intros Hst Hstep%step_returned.
  destruct ev; simpl in Hstep.
  - by subst.
  - destruct Hstep as [-> Hprint]. unfold registerUser.
    destruct (truthy userId); [|done]. simpl.
    intros k v [->|[v' Hin]]%set_entries; [by apply Hprint | by eapply Hst].
  - by destruct Hstep as [-> _].
  - by destruct Hstep as [-> _].
  - by subst.
  - subst. simpl. intros k v Hin.
    destruct (unregister_loop_cases sock (JsMap.entries (userSocketMap st))
                (userSocketMap st)) as [E|(u & _ & E)]; rewrite E in Hin.
    + by eapply Hst.
    + apply delete_entries in Hin. by eapply Hst.
Qed.

Lemma step_returns_iff st ev :
  keys_printable (userSocketMap st) →
  (∃ st' ds, step st ev = Returned (st', ds)) ↔ throwing ev = false.
Proof.
  intros Hst. destruct ev; simpl.
  - split; [done | by eexists _, _].
  - unfold on_registerUser. destruct (truthy userId), (printable userId); simpl;
      (split; [by try intros (? & ? & ?) | intros ?; first [done | by eexists _, _]]).
  - unfold on_joinRoom. destruct (printable roomId0); simpl;
      (split; [by try intros (? & ? & ?) | intros ?; first [done | by eexists _, _]]).
  - unfold on_leaveRoom. destruct (printable roomId0); simpl;
      (split; [by try intros (? & ? & ?) | intros ?; first [done | by eexists _, _]]).
  - unfold sendMessage. destruct (destructure data) as [msg|]; simpl.
    + destruct (loggable msg); simpl;
        (split; [by try intros (? & ? & ?) | intros ?; first [done | by eexists _, _]]).
    + split; [by intros (? & ? & ?) | done].
  - split; [done|]. intros _. unfold on_disconnect.
    destruct (unregistered sock _) as [u|] eqn:E; [|by eexists _, _].
    apply unregistered_entry, Hst in E. rewrite E. by eexists _, _.
Qed.

Lemma run_returns_from st evs :
  keys_printable (userSocketMap st) →
  (∃ st', run evs st = Returned st') ↔
  forallb (λ ev, negb (throwing ev)) evs = true.
Proof.
  revert st. induction evs as [|ev evs IH]; intros st Hst; simpl.
  - split; [done | by eexists].
  - rewrite andb_true_iff, negb_true_iff, <-(step_returns_iff st ev Hst).
    destruct (step st ev) as [[st1 ds]|e] eqn:E.
    + rewrite <-(IH st1) by by eapply keys_printable_step. split.
      * intros Hrun. split; [by eexists _, _ | done].
      * by intros [_ Hrun].
    + split; [by intros [? ?] | by intros [(? & ? & ?) _]].
Qed.

(** X2: a handler throws exactly on an event that carries something it
    cannot take: a [sendMessage] payload that is [undefined] or [null],
    or a [userId], [roomId], [senderId] or [text] that its log line
    cannot convert to a string. From its start, the relay handles a
    sequence of events to the end exactly when the sequence holds no such
    event; no disconnect makes it throw. *)
Theorem run_returns_iff (evs : list Event) :
  (∃ st', run evs initial = Returned st') ↔
  forallb (λ ev, negb (throwing ev)) evs = true.
Proof. apply run_returns_from. by intros k v ?%elem_of_nil. Qed.

Lemma in_room_leave s' r' s r rs :
  in_room s' r' (leave s r rs)
  = in_room s' r' rs && negb (String.eqb s' s && strict_eq r' r).
Proof.
  apply Bool.eq_iff_eq_true. rewrite andb_true_iff, !in_room_true. unfold leave. split.
  - intros (r0 & [Hin Hkeep]%list_elem_of_In%filter_In & Hr).
    split; [exists r0; by rewrite list_elem_of_In|].
    by rewrite <-(strict_eq_congr _ _ r Hr).
  - intros [(r0 & Hin & Hr) Hkeep]. exists r0. split; [|done].
    apply list_elem_of_In, filter_In. split; [by apply list_elem_of_In|].
    by rewrite (strict_eq_congr _ _ r Hr).
Qed.

Lemma in_room_leave_all s' r' s rs :
  in_room s' r' (leave_all s rs) = in_room s' r' rs && negb (String.eqb s' s).
Proof.
  apply Bool.eq_iff_eq_true. rewrite andb_true_iff, !in_room_true. unfold leave_all.
  split.
  - intros (r0 & [Hin Hkeep]%list_elem_of_In%filter_In & Hr).
    split; [exists r0; by rewrite list_elem_of_In | done].
  - intros [(r0 & Hin & Hr) Hkeep]. exists r0. split; [|done].
    apply list_elem_of_In, filter_In. split; [by apply list_elem_of_In | done].
Qed.

Lemma elem_of_reached c sock data st :
  c ∈ reached sock data st →
  ∃ msg, destructure data = Returned msg ∧ c ≠ sock ∧
         if rooms_of (roomId msg) is [] then c ∈ sockets st
         else ∃ r t, (c, r) ∈ rooms st ∧ t ∈ rooms_of (roomId msg) ∧
                     strict_eq r t = true.
Proof.
  unfold reached, sendMessage. destruct (destructure data) as [msg|]; simpl;
    [|by intros ?%elem_of_nil].
  destruct (loggable msg); simpl; [|by intros ?%elem_of_nil].
  intros [Hne Hin]%recipients_emit_to. by exists msg.
Qed.

Lemma strict_eq_not_array r room :
  strict_eq r room = true → is_array room = false → is_array r = false.
Proof. by destruct r, room. Qed.

(** X3: a socket that joined a room named by a value other than an array
    and left it is not in it: no message sent to the room reaches it; its
    other rooms, the rooms of the other sockets, the live sockets and the
    presence map are as before. *)
Theorem joinRoom_then_leaveRoom (st st' : State) (s : SocketId) (room : Value) :
  run [JoinRoom s room; LeaveRoom s room] st = Returned st' →
  is_array room = false →
  (∀ sender data msg,
      destructure data = Returned msg → strict_eq (roomId msg) room = true →
      s ∉ reached sender data st') ∧
  (∀ s' r', s' ≠ s → in_room s' r' (rooms st') = in_room s' r' (rooms st)) ∧
  (∀ r', strict_eq r' room = false →
      in_room s r' (rooms st') = in_room s r' (rooms st)) ∧
  userSocketMap st' = userSocketMap st ∧
  sockets st' = sockets st.
Proof.
  intros Hrun Hroom.
  assert (st' = leaveRoom s room (joinRoom s room st)) as ->.
  { simpl in Hrun. unfold on_joinRoom, on_leaveRoom in Hrun.
    destruct (printable room); simpl in Hrun; congruence. }
  assert (rooms (leaveRoom s room (joinRoom s room st))
          = leave s room (join s room (rooms st))) as Hrooms.
  { simpl. unfold join_each. by rewrite (rooms_of_not_array _ Hroom). }
  rewrite Hrooms. split_and!; [| | |done|done].
  - intros sender data msg Hdata Heq (msg' & Hdata' & _ & Hin)%elem_of_reached.
    assert (msg' = msg) as -> by congruence.
    rewrite (rooms_of_not_array _ (strict_eq_not_array _ _ Heq Hroom)), Hrooms in Hin.
    destruct Hin as (r & t & Hin & ->%list_elem_of_singleton & Hr).
    assert (in_room s (roomId msg) (leave s room (join s room (rooms st))) = true)
      as Hmember by (apply in_room_true; by exists r).
    rewrite (in_room_congr s _ _ _ Heq), in_room_leave in Hmember.
    by rewrite String.eqb_refl, strict_eq_refl, andb_false_r in Hmember.
  - intros s' r' Hs. rewrite in_room_leave, in_room_join.
    apply String.eqb_neq in Hs. rewrite Hs. rewrite String.eqb_sym, Hs. simpl.
    by rewrite orb_false_r, andb_true_r.
  - intros r' Hr. rewrite in_room_leave, in_room_join, Hr.
    rewrite strict_eq_sym, Hr. simpl.
    by rewrite !andb_false_r, orb_false_r, andb_true_r.
Qed.

Lemma joinRoom_then_leaveRoom_witness :
  let st := Sample.relay in
  let st' := leaveRoom "s1" (Str "ann--bob") Sample.relay in
  (∀ sender data msg,
      destructure data = Returned msg →
      strict_eq (roomId msg) (Str "ann--bob") = true →
      "s1" ∉ reached sender data st') ∧
  (∀ s' r', s' ≠ "s1" → in_room s' r' (rooms st') = in_room s' r' (rooms st)) ∧
  (∀ r', strict_eq r' (Str "ann--bob") = false →
      in_room "s1" r' (rooms st') = in_room "s1" r' (rooms st)) ∧
  userSocketMap st' = userSocketMap st ∧
  sockets st' = sockets st.
Proof.
  intros st st'.
  apply (joinRoom_then_leaveRoom st st' "s1" (Str "ann--bob")); reflexivity.
Defined.

(** [socket.leave] takes one room: after joining the rooms an array
    lists, leaving with the same array leaves none of them. *)
Example joinRoom_array_then_leaveRoom :
  let both := Arr 1 [Str "a--b"; Str "a--c"] in
  run [JoinRoom "s1" both; LeaveRoom "s1" both] (connection "s1" initial)
  = Returned {| userSocketMap := [];
                sockets := ["s1"];
                rooms := [("s1", Str "s1"); ("s1", Str "a--b"); ("s1", Str "a--c")] |}.
Proof. reflexivity. Qed.

(** Joining a room twice is joining it once, and leaving a room one is
    not in changes nothing. *)
Theorem joinRoom_idempotent_leaveRoom_noop (st : State) (s : SocketId) (room : Value) :
  (is_array room = false → joinRoom s room (joinRoom s room st) = joinRoom s room st) ∧
  (in_room s room (rooms st) = false → leaveRoom s room st = st).
Proof.
  split.
  - intros Hroom. unfold joinRoom, join_each; simpl.
    rewrite (rooms_of_not_array _ Hroom). simpl. by rewrite join_idempotent.
  - intros Hout. unfold leaveRoom, leave.
    assert (List.filter (λ '(s0, r), negb (String.eqb s0 s && strict_eq r room))
              (rooms st) = rooms st) as ->; [|by destruct st].
    unfold in_room in Hout. induction (rooms st) as [|[s0 r0] rs IH]; simpl; [done|].
    simpl in Hout. apply orb_false_elim in Hout as [-> Hout]. simpl.
    by rewrite IH.
Qed.

Lemma membersOf_cons s r room rs :
  membersOf room ((s, r) :: rs)
  = if strict_eq r room then s :: membersOf room rs else membersOf room rs.
Proof. unfold membersOf; simpl. by destruct (strict_eq r room). Qed.

Lemma membersOf_leave_all room s rs :
  membersOf room (leave_all s rs)
  = List.filter (λ c, negb (String.eqb c s)) (membersOf room rs).
Proof.
  unfold leave_all. induction rs as [|[s0 r0] rs IH]; [done|].
  rewrite membersOf_cons. simpl.
  destruct (negb (String.eqb s0 s)) eqn:E; simpl.
  - rewrite membersOf_cons. destruct (strict_eq r0 room); simpl; [|done].
    by rewrite E, IH.
  - destruct (strict_eq r0 room); simpl; [|done]. by rewrite E.
Qed.

Lemma members_of_each_leave_all (ts : list Value) s rs :
  concat ((λ t, membersOf t (leave_all s rs)) <$> ts)
  = List.filter (λ c, negb (String.eqb c s)) (concat ((λ t, membersOf t rs) <$> ts)).
Proof.
  rewrite list_filter_concat, <-list_fmap_compose. f_equal.
  apply list_fmap_ext. intros _ t _. simpl. apply membersOf_leave_all.
Qed.

(** X4: a disconnected socket is no longer live and is in no room, so no
    later message reaches it; the other sockets are reached as before. *)
Theorem disconnect_leaves_rooms (st : State) (s : SocketId) :
  (s ∉ sockets (disconnect s st)) ∧
  (∀ room, in_room s room (rooms (disconnect s st)) = false) ∧
  (∀ sender data,
      reached sender data (disconnect s st)
      = List.filter (λ c, negb (String.eqb c s)) (reached sender data st)).
Proof.
  split_and!; simpl.
  - intros [_ Hne]%list_elem_of_In%filter_In. by rewrite String.eqb_refl in Hne.
  - intros room. by rewrite in_room_leave_all, String.eqb_refl, andb_false_r.
  - intros sender data. unfold reached, sendMessage.
    destruct (destructure data) as [msg|]; simpl; [|done].
    destruct (loggable msg); simpl; [|done].
    unfold emit_to. destruct (rooms_of (roomId msg)) eqn:E.
    + rewrite !recipients_broadcast_eq. apply list_filter_comm.
    + rewrite !recipients_to_emit_eq.
      by rewrite members_of_each_leave_all, dedupe_filter, list_filter_comm.
Qed.

(** The loop does delete when an entry holds the socket. *)
Lemma unregister_loop_found sock (es : list (Value * SocketId)) (m : JsMap.t SocketId) k :
  (k, sock) ∈ es →
  ∃ userId, (userId, sock) ∈ es ∧ unregister_loop sock es m = JsMap.delete userId m.
Proof.
  induction es as [|[userId socketId] es IH]; simpl; [by intros ?%elem_of_nil|].
  intros Hin. destruct (String.eqb_spec socketId sock) as [->|Hne].
  - exists userId. split; [left|done].
  - apply elem_of_cons in Hin as [[= _ ->]|Hin]; [done|].
    destruct (IH Hin) as (u & Hu & ->). exists u. split; [by right|done].
Qed.

Lemma get_Some_entry {V} k (v : V) (m : JsMap.t V) :
  JsMap.get k m = Some v → ∃ k', (k', v) ∈ JsMap.entries m ∧ strict_eq k' k = true.
Proof.
  unfold JsMap.entries. induction m as [|[k0 v0] m IH]; simpl; [done|].
  destruct (strict_eq k0 k) eqn:E.
  - intros [= ->]. exists k0. split; [left|done].
  - intros (k' & Hin & Hk)%IH. exists k'. split; [by right|done].
Qed.

(** X5: the disconnect handler deletes one entry at most: when a socket
    has registered two users, one of them still maps to the socket after
    the socket is gone. *)
Theorem disconnect_keeps_second_user
    (evs : list Event) (st : State) (c : SocketId) (u1 u2 : Value) :
  run evs initial = Returned st →
  truthy u1 = true → truthy u2 = true → strict_eq u1 u2 = false →
  lookup u1 (disconnect c (registerUser c u2 (registerUser c u1 st))) = Some c ∨
  lookup u2 (disconnect c (registerUser c u2 (registerUser c u1 st))) = Some c.
Proof.
  intros Hreach Hu1 Hu2 Hne. unfold lookup, registerUser. rewrite Hu1, Hu2; simpl.
  set (m2 := JsMap.set u2 c (JsMap.set u1 c (userSocketMap st))).
  assert (JsMap.get u2 m2 = Some c) as Hget2 by apply get_set_eq.
  assert (JsMap.get u1 m2 = Some c) as Hget1.
  { unfold m2. rewrite get_set_ne by by rewrite strict_eq_sym. apply get_set_eq. }
  destruct (unregister_loop_cases c (JsMap.entries m2) m2) as [->|(k & _ & ->)];
    [by left|].
  destruct (strict_eq k u1) eqn:Hk.
  - right. rewrite get_delete_other; [done|].
    by rewrite (strict_eq_congr _ _ u2 Hk).
  - left. by rewrite get_delete_other.
Qed.

Lemma disconnect_keeps_second_user_witness :
  lookup (Str "ann") (disconnect "s9" (registerUser "s9" (Str "amy")
                                         (registerUser "s9" (Str "ann") Sample.relay)))
  = Some "s9" ∨
  lookup (Str "amy") (disconnect "s9" (registerUser "s9" (Str "amy")
                                         (registerUser "s9" (Str "ann") Sample.relay)))
  = Some "s9".
Proof.
  apply (disconnect_keeps_second_user
           [Connection "s0"; RegisterUser "s0" (Str "bob"); Connection "s1";
            RegisterUser "s1" (Str "ann"); Connection "s2";
            JoinRoom "s1" (Str "ann--bob")]
           Sample.relay "s9" (Str "ann") (Str "amy")); reflexivity.
Defined.

(** X6: a socket that holds no entry, registers a user and disconnects
    leaves the presence map as it found it: the user is absent again and
    every other user maps to what it mapped to. *)
Theorem register_then_disconnect
    (evs : list Event) (st : State) (c : SocketId) (user : Value) :
  run evs initial = Returned st →
  truthy user = true →
  (∀ k, lookup k st ≠ Some c) →
  lookup user st = None →
  lookup user (disconnect c (registerUser c user st)) = None ∧
  (∀ k, lookup k (disconnect c (registerUser c user st)) = lookup k st).
Proof.
  intros Hreach Huser Hfree Hnew.
  assert (∀ k, lookup k (disconnect c (registerUser c user st)) = lookup k st)
    as Hsame; [|split; [by rewrite Hsame | done]].
  intros k. unfold lookup, registerUser in *.
  rewrite Huser; simpl.
  assert (JsMap.keys_unique (userSocketMap st)) as Hst
    by (apply (keys_unique_run evs initial st); [exact I | exact Hreach]).
  set (m1 := JsMap.set user c (userSocketMap st)).
  assert (JsMap.keys_unique m1) as Hm1 by by apply keys_unique_set.
  destruct (get_Some_entry user c m1 (get_set_eq user c _)) as (k0 & Hin0 & _).
  destruct (unregister_loop_found c (JsMap.entries m1) m1 k0 Hin0) as (u & Hu & ->).
  assert (strict_eq user u = true) as Huu.
  { destruct (strict_eq user u) eqn:E; [done|].
    apply get_entry in Hu; [|done]. unfold m1 in Hu.
    rewrite get_set_ne in Hu by done. by apply Hfree in Hu. }
  destruct (strict_eq user k) eqn:Hk.
  - rewrite get_delete_same; [|done|].
    + by rewrite <-(get_congr _ _ _ Hk), Hnew.
    + by rewrite <-(strict_eq_congr _ _ k Huu).
  - rewrite get_delete_other.
    + unfold m1. by rewrite get_set_ne.
    + by rewrite <-(strict_eq_congr _ _ k Huu).
Qed.

Lemma register_then_disconnect_witness :
  lookup (Str "amy") (disconnect "s9" (registerUser "s9" (Str "amy") Sample.relay))
  = None ∧
  (∀ k, lookup k (disconnect "s9" (registerUser "s9" (Str "amy") Sample.relay))
        = lookup k Sample.relay).
Proof.
  apply (register_then_disconnect
           [Connection "s0"; RegisterUser "s0" (Str "bob"); Connection "s1";
            RegisterUser "s1" (Str "ann"); Connection "s2";
            JoinRoom "s1" (Str "ann--bob")]
           Sample.relay "s9" (Str "amy")); [reflexivity | reflexivity | | reflexivity].
  intros k.
  change (JsMap.get k [(Str "bob", "s0"); (Str "ann", "s1")] ≠ Some "s9").
  cbn [JsMap.get].
  destruct (strict_eq (Str "bob") k); [intros [=]|].
  destruct (strict_eq (Str "ann") k); intros [=].
Defined.

End RelayFacts.

(** ** More on sending *)

Section SendFacts.
Import Client Page.
Context {parser : DateParser}.
Implicit Types (c : State) (p : Pending) (msg : ChatMessage)
  (prev : list ChatMessage).

Lemma trimStart_blank s : trimStart s = "" ↔ blank s = true.
Proof.
  unfold blank. induction s as [|ch s IH]; simpl; [done|].
  destruct (is_white_space ch); simpl; [done|]. by split.
Qed.

Lemma trimStart_head s :
  trimStart s = "" ∨ ∃ ch s', trimStart s = String ch s' ∧ is_white_space ch = false.
Proof.
  induction s as [|ch s IH]; simpl; [by left|].
  destruct (is_white_space ch) eqn:E; [done|]. right. by exists ch, s.
Qed.

Lemma trim_blank s : trim s = "" ↔ blank s = true.
Proof.
  rewrite <-trimStart_blank. unfold trim.
  destruct (trimStart_head s) as [->|(ch & s' & -> & Hch)]; [done|].
  simpl. by rewrite Hch.
Qed.

(** X7: [handleSend] does nothing at all (no optimistic message, input
    kept, nothing written or emitted) exactly when the guard fails: no
    socket, not connected, a message of white space only, or no room, no
    selected peer or no user. *)
Theorem handleSend_guard_cases (c : State) (now_id now_ts : Z) :
  (submit now_id now_ts c = None ↔
   socket c = None ∨ isSocketConnected c = false ∨ blank (message c) = true ∨
   truthy (currentRoomId c) = false ∨ truthy (selectedChatId c) = false ∨
   truthy (currentUserId c) = false) ∧
  (submit now_id now_ts c = None →
   ∀ result, handleSend now_id now_ts result c = c).
Proof.
  split; [|intros Hnone result; by apply handleSend_guard].
  unfold submit.
  destruct (socket c) as [sent|]; [|split; [intros _; auto 10 | done]].
  assert (blank (message c) = negb (negb (String.eqb (trim (message c)) ""))) as ->.
  { rewrite negb_involutive. apply Bool.eq_iff_eq_true.
    by rewrite <-trim_blank, String.eqb_eq. }
  destruct (currentRoomId c) as [room|]; [|split; [intros _; auto 10 | done]].
  destruct (currentUserId c) as [uid|]; [|split; [intros _; auto 10 | done]].
  destruct (isSocketConnected c), (negb (String.eqb (trim (message c)) "")),
    (truthy (Some room)), (truthy (selectedChatId c)), (truthy (Some uid));
    simpl; (split; [try done; intros _; auto 10 |]);
    try done; intros [?|[?|[?|[?|[?|?]]]]]; congruence.
Qed.

Example handleSend_white_space :
  handleSend 7 7 InsertError (setMessage "  " Sample.page) = setMessage "  " Sample.page.
Proof. reflexivity. Qed.

Lemma confirm_fresh (t : string) (ins : Inserted) prev :
  Forall (λ msg, id msg ≠ t) prev → confirmMessage t ins <$> prev = prev.
Proof.
  induction 1 as [|msg prev Hmsg _ IH]; [done|]. simpl.
  unfold confirmMessage at 1. apply String.eqb_neq in Hmsg. rewrite Hmsg.
  by f_equal.
Qed.

Lemma submit_inv now_id now_ts c p c1 :
  submit now_id now_ts c = Some (p, c1) →
  ∃ sent,
    socket c = Some sent ∧
    currentRoomId c = Some (pendingRoomId p) ∧
    currentUserId c = Some (pendingUserId p) ∧
    pendingUserId p ≠ "" ∧
    messageText p = message c ∧
    tempId p = pendingUserId p +:+ "-" +:+ number_to_string now_id ∧
    c1 = setChatHistory (λ prev, prev ++ [newMessage now_ts p]) (setMessage "" c).
Proof.
  unfold submit.
  destruct (socket c) as [sent|]; [|done].
  destruct (currentRoomId c) as [room|]; [|done].
  destruct (currentUserId c) as [uid|]; [|done].
  destruct (_ && _) eqn:Hguard; [|done]. intros [= <- <-]. simpl.
  apply andb_prop in Hguard as [_ Huid]. simpl in Huid.
  apply negb_true_iff, String.eqb_neq in Huid. by exists sent.
Qed.

(** X8: a send whose write returns the stored row ends with the message
    at the end of the sequence under its stored id and timestamp, the
    input empty, and one [sendMessage] more on the socket, carrying the
    text as typed, the room and the user. *)
Theorem handleSend_stored_row
    (c : State) (now_id now_ts : Z) (ins : Inserted) (p : Pending) (c1 : State)
    (sent : list Emit) :
  submit now_id now_ts c = Some (p, c1) →
  socket c = Some sent →
  Forall (λ msg, id msg ≠ tempId p) (chatHistory c) →
  chatHistory (handleSend now_id now_ts (InsertData (Some ins)) c)
  = chatHistory c ++
      [ {| id := inserted_id ins; text := message c; sender := me;
           roomId := pendingRoomId p;
           timestamp := date_parse (inserted_created_at ins);
           senderId := pendingUserId p;
           created_at := Some (inserted_created_at ins) |} ] ∧
  message (handleSend now_id now_ts (InsertData (Some ins)) c) = "" ∧
  socket (handleSend now_id now_ts (InsertData (Some ins)) c)
  = Some (sent ++ [sendMessage (message c) (pendingRoomId p) (pendingUserId p)]).
Proof.
  intros Hsubmit Hsocket Hfresh. unfold handleSend. rewrite Hsubmit.
  apply submit_inv in Hsubmit as (sent' & Hsent & _ & _ & _ & Htext & _ & ->).
  unfold settle; simpl. rewrite Hsocket; simpl. rewrite Hsocket, Htext.
  split_and!; [|done..].
  rewrite fmap_app, confirm_fresh by done. simpl.
  unfold confirmMessage; simpl. by rewrite String.eqb_refl, Htext.
Qed.

(** X9: when the write succeeds without returning a row, the message
    still goes out on the socket, and the optimistic entry stays in the
    sequence under its temporary id. *)
Theorem handleSend_no_row
    (c : State) (now_id now_ts : Z) (p : Pending) (c1 : State) (sent : list Emit) :
  submit now_id now_ts c = Some (p, c1) →
  socket c = Some sent →
  chatHistory (handleSend now_id now_ts (InsertData None) c)
  = chatHistory c ++ [newMessage now_ts p] ∧
  message (handleSend now_id now_ts (InsertData None) c) = "" ∧
  socket (handleSend now_id now_ts (InsertData None) c)
  = Some (sent ++ [sendMessage (message c) (pendingRoomId p) (pendingUserId p)]).
Proof.
  intros Hsubmit Hsocket. unfold handleSend. rewrite Hsubmit.
  apply submit_inv in Hsubmit as (sent' & Hsent & _ & _ & _ & Htext & _ & ->).
  unfold settle; simpl. rewrite Hsocket; simpl. by rewrite Hsocket, Htext.
Qed.

(** X10: when the socket goes away while the write is under way, a
    stored message is not relayed: nothing is emitted, the entry stays in
    the sequence under its stored id, and the text is back in the
    input. *)
Theorem settle_after_disconnect
    (c : State) (now_id now_ts : Z) (ins : Inserted) (p : Pending) (c1 : State) :
  submit now_id now_ts c = Some (p, c1) →
  Forall (λ msg, id msg ≠ tempId p) (chatHistory c) →
  inserted_id ins ≠ tempId p →
  chatHistory (settle p (InsertData (Some ins)) (onDisconnect c1))
  = chatHistory c ++ [confirmMessage (tempId p) ins (newMessage now_ts p)] ∧
  message (settle p (InsertData (Some ins)) (onDisconnect c1)) = message c ∧
  socket (settle p (InsertData (Some ins)) (onDisconnect c1)) = None.
Proof.
  intros Hsubmit Hfresh Hid.
  apply submit_inv in Hsubmit as (sent & Hsent & _ & _ & _ & Htext & _ & ->).
  unfold settle; simpl. split_and!; [|done..].
  rewrite fmap_app, confirm_fresh by done. simpl.
  rewrite List.filter_app, filter_temp_fresh by done. simpl.
  unfold confirmMessage at 1; simpl. rewrite String.eqb_refl; simpl.
  apply String.eqb_neq in Hid. rewrite Hid; simpl.
  unfold confirmMessage; simpl. by rewrite String.eqb_refl.
Qed.

(** X11: a history load that lands between the submit and the answer of
    the write replaces the sequence, optimistic message included; whatever
    the write answers then, the sequence stays the loaded rows: the sent
    message is not shown unless the load already had it. *)
Theorem reload_drops_pending
    (c : State) (now_id now_ts : Z) (result : InsertResult) (p : Pending)
    (c1 : State) (rows : list Row) :
  submit now_id now_ts c = Some (p, c1) →
  Forall (λ row, row_id row ≠ tempId p) rows →
  chatHistory (settle p result (fetchHistory (QueryData (Some rows)) c1))
  = formatRow (pendingUserId p) <$> rows.
Proof.
  intros Hsubmit Hrows.
  apply submit_inv in Hsubmit as (sent & Hsent & _ & Huid & Hne & _ & _ & ->).
  unfold fetchHistory; simpl. rewrite Huid.
  apply String.eqb_neq in Hne. rewrite Hne.
  assert (Forall (λ msg, id msg ≠ tempId p) (formatRow (pendingUserId p) <$> rows))
    as Hfresh by by apply Forall_fmap.
  unfold settle, revert.
  destruct result as [|[ins|]|]; simpl; rewrite ?Hsent; simpl;
    by rewrite ?confirm_fresh, ?filter_temp_fresh.
Qed.

End SendFacts.

Section SendWitnesses.
Import Client Page.

Lemma handleSend_stored_row_witness :
  chatHistory (handleSend (parser := Sample.dates) 7 7
                 (InsertData (Some Sample.stored)) Sample.page)
  = chatHistory Sample.page ++
      [ {| id := inserted_id Sample.stored; text := message Sample.page;
           sender := me; roomId := pendingRoomId Sample.pending;
           timestamp := Sample.dates (inserted_created_at Sample.stored);
           senderId := pendingUserId Sample.pending;
           created_at := Some (inserted_created_at Sample.stored) |} ] ∧
  message (handleSend (parser := Sample.dates) 7 7
             (InsertData (Some Sample.stored)) Sample.page) = "" ∧
  socket (handleSend (parser := Sample.dates) 7 7
            (InsertData (Some Sample.stored)) Sample.page)
  = Some ([] ++ [sendMessage (message Sample.page) (pendingRoomId Sample.pending)
                   (pendingUserId Sample.pending)]).
Proof.
  apply (handleSend_stored_row (parser := Sample.dates) Sample.page 7 7
           Sample.stored Sample.pending Sample.submitted []);
    [reflexivity | reflexivity |].
  repeat constructor. discriminate.
Defined.

Lemma handleSend_no_row_witness :
  chatHistory (handleSend (parser := Sample.dates) 7 7 (InsertData None) Sample.page)
  = chatHistory Sample.page ++ [newMessage 7 Sample.pending] ∧
  message (handleSend (parser := Sample.dates) 7 7 (InsertData None) Sample.page) = "" ∧
  socket (handleSend (parser := Sample.dates) 7 7 (InsertData None) Sample.page)
  = Some ([] ++ [sendMessage (message Sample.page) (pendingRoomId Sample.pending)
                   (pendingUserId Sample.pending)]).
Proof.
  apply (handleSend_no_row (parser := Sample.dates) Sample.page 7 7
           Sample.pending Sample.submitted []); reflexivity.
Defined.

Lemma settle_after_disconnect_witness :
  chatHistory (settle (parser := Sample.dates) Sample.pending
                 (InsertData (Some Sample.stored)) (onDisconnect Sample.submitted))
  = chatHistory Sample.page ++
      [confirmMessage (parser := Sample.dates) (tempId Sample.pending) Sample.stored
         (newMessage 7 Sample.pending)] ∧
  message (settle (parser := Sample.dates) Sample.pending
             (InsertData (Some Sample.stored)) (onDisconnect Sample.submitted))
  = message Sample.page ∧
  socket (settle (parser := Sample.dates) Sample.pending
            (InsertData (Some Sample.stored)) (onDisconnect Sample.submitted)) = None.
Proof.
  apply (settle_after_disconnect (parser := Sample.dates) Sample.page 7 7
           Sample.stored Sample.pending Sample.submitted);
    [reflexivity | | discriminate].
  repeat constructor. discriminate.
Defined.

Lemma reload_drops_pending_witness :
  chatHistory (settle (parser := Sample.dates) Sample.pending
                 (InsertData (Some Sample.stored))
                 (fetchHistory (parser := Sample.dates)
                    (QueryData (Some [Sample.row])) Sample.submitted))
  = formatRow (parser := Sample.dates) (pendingUserId Sample.pending) <$> [Sample.row].
Proof.
  apply (reload_drops_pending (parser := Sample.dates) Sample.page 7 7
           (InsertData (Some Sample.stored)) Sample.pending Sample.submitted
           [Sample.row]); [reflexivity|].
  repeat constructor. discriminate.
Defined.

End SendWitnesses.

(** ** More on the unread boundary *)

Section BoundaryFacts.
Import Client Page.
Context {parser : DateParser}.
Implicit Types (c : State) (p : Pending) (msg : ChatMessage)
  (prev : list ChatMessage).

Lemma findIndex_app_last {A} (q : A → bool) (l : list A) (x : A) :
  findIndex q (l ++ [x])
  = if findIndex q l =? -1
    then (if q x then Z.of_nat (length l) else -1)
    else findIndex q l.
Proof.
  induction l as [|y l IH]; simpl.
  - by destruct (q x).
  - destruct (q y); [done|]. rewrite IH.
    destruct (findIndex_range q l) as [E|E].
    + rewrite E. simpl. destruct (q x); simpl; [|done].
      destruct (Z.ltb_spec (Z.of_nat (length l)) 0); lia.
    + destruct (Z.eqb_spec (findIndex q l) (-1)); [lia|].
      destruct (Z.ltb_spec (findIndex q l) 0); [lia|].
      destruct (Z.eqb_spec (findIndex q l + 1) (-1)); [lia | done].
Qed.

Lemma Forall_list_filter {A} (P : A → Prop) (f : A → bool) (l : list A) :
  Forall P l → Forall P (List.filter f l).
Proof.
  induction 1 as [|x l Hx _ IH]; simpl; [constructor|].
  destruct (f x); [by constructor | done].
Qed.

Lemma confirmMessage_agrees uid t ins msg :
  sender_agrees uid msg → sender_agrees uid (confirmMessage t ins msg).
Proof. unfold confirmMessage, sender_agrees. by destruct (String.eqb (id msg) t). Qed.

(** X12: the three operations that write the sequence (sending with
    whatever outcome, receiving, loading the history) keep the [sender]
    tag of every message in agreement with its sender id. *)
Theorem sender_tags_kept (c : State) (uid : string) :
  currentUserId c = Some uid →
  currentUserRef c = Some uid →
  Forall (sender_agrees uid) (chatHistory c) →
  (∀ now_id now_ts result,
      Forall (sender_agrees uid) (chatHistory (handleSend now_id now_ts result c))) ∧
  (∀ now_id now_ts relayed,
      Forall (sender_agrees uid)
        (chatHistory (receiveMessageHandler now_id now_ts relayed c))) ∧
  (∀ result, Forall (sender_agrees uid) (chatHistory (fetchHistory result c))).
Proof.
  intros Huid Href Hall. split_and!.
  - intros now_id now_ts result. unfold handleSend.
    destruct (submit now_id now_ts c) as [[p c1]|] eqn:Hsubmit; [|done].
    apply submit_inv in Hsubmit as (sent & Hsent & _ & Hp & _ & _ & _ & ->).
    assert (pendingUserId p = uid) as Hpu by congruence.
    assert (Forall (sender_agrees uid) (chatHistory c ++ [newMessage now_ts p]))
      as Hall1.
    { apply Forall_app. split; [done|]. apply Forall_singleton.
      rewrite <-Hpu. apply newMessage_agrees. }
    unfold settle, revert.
    destruct result as [|[ins|]|]; simpl; rewrite ?Hsent; simpl;
      try (by apply Forall_list_filter); [|done].
    apply Forall_fmap. eapply Forall_impl; [exact Hall1|].
    intros msg. apply confirmMessage_agrees.
  - intros now_id now_ts relayed. by apply received_agrees.
  - intros result. unfold fetchHistory. rewrite Huid.
    destruct (String.eqb uid ""); simpl; [constructor|].
    destruct result as [|[rows|]|]; simpl; try constructor.
    apply Forall_fmap, Forall_forall. intros row _. apply formatRow_agrees.
Qed.

Lemma filtered_onFocus now c :
  filteredChatHistory (onFocus now c) = filteredChatHistory c.
Proof.
  unfold onFocus, filteredChatHistory.
  destruct (currentRoomId c) as [r|] eqn:Hr; [|by rewrite ?Hr].
  destruct (String.eqb r ""); simpl; by rewrite ?Hr.
Qed.

Lemma lastViewedTime_onFocus_pos now c :
  0 < lastViewedTime (onFocus now c) → lastViewedTime (onFocus now c) = now.
Proof.
  destruct (truthy (currentRoomId c)) eqn:Hroom;
    [intros _; by apply lastViewedTime_onFocus|].
  unfold lastViewedTime, onFocus, truthy in *.
  destruct (currentRoomId c) as [r|] eqn:Hr; [|rewrite Hr; lia].
  apply negb_false_iff in Hroom. rewrite Hroom, Hr, Hroom. lia.
Qed.

(** X13: right after the input got the focus at a time no message is
    later than, there is no unread boundary. *)
Theorem onFocus_clears_boundary (c : State) (now : Z) :
  (∀ msg t, msg ∈ filteredChatHistory c → messageTime msg = Some t → t ≤ now) →
  firstUnreadIndex (onFocus now c) = -1.
Proof.
  intros Hold. unfold firstUnreadIndex, firstUnreadIndexOf.
  destruct (Z.ltb_spec 0 (lastViewedTime (onFocus now c))) as [Hpos|]; [|done].
  rewrite (lastViewedTime_onFocus_pos now c Hpos), filtered_onFocus.
  apply findIndex_none. intros msg Hin.
  unfold isFirstUnread. destruct (messageTime msg) as [t|] eqn:Ht; [|done].
  assert ((now <? t) = false) as ->; [|done].
  apply Z.ltb_ge. by eapply Hold.
Qed.

Lemma filtered_app c (f : list ChatMessage → list ChatMessage) msg :
  f (chatHistory c) = chatHistory c ++ [msg] →
  same (roomId msg) (currentRoomId c) = true →
  filteredChatHistory (setChatHistory f c) = filteredChatHistory c ++ [msg].
Proof.
  intros Hf Hroom. unfold filteredChatHistory; simpl.
  rewrite Hf, List.filter_app. simpl. by rewrite Hroom.
Qed.

(** X14: a message of the peer that arrives in the open room leaves a
    boundary that is drawn where it is, and, when none is drawn, gets the
    boundary itself if the room was viewed before and not since the
    message came. *)
Theorem arrival_sets_boundary
    (c : State) (now_id now_ts : Z) (relayed : Relayed) (room : string) :
  currentRoomId c = Some room →
  currentRoomIdRef c = Some room →
  msg_roomId relayed = room →
  currentUserRef c ≠ Some (msg_senderId relayed) →
  (firstUnreadIndex c ≠ -1 →
   firstUnreadIndex (receiveMessageHandler now_id now_ts relayed c)
   = firstUnreadIndex c) ∧
  (firstUnreadIndex c = -1 → 0 < lastViewedTime c < now_ts →
   firstUnreadIndex (receiveMessageHandler now_id now_ts relayed c)
   = Z.of_nat (length (filteredChatHistory c))) ∧
  (firstUnreadIndex c = -1 → now_ts ≤ lastViewedTime c →
   firstUnreadIndex (receiveMessageHandler now_id now_ts relayed c) = -1).
Proof.
  intros Hroom Href Hmsg Hpeer.
  assert (∃ msg,
      receiveMessageHandler now_id now_ts relayed c
      = setChatHistory (λ prev, prev ++ [msg]) c ∧
      roomId msg = room ∧ sender msg = other ∧ messageTime msg = Some now_ts)
    as (msg & -> & Hmroom & Hsender & Htime).
  { unfold receiveMessageHandler. rewrite Href, Hmsg; simpl.
    rewrite String.eqb_refl.
    destruct (currentUserRef c) as [self|] eqn:Hself; simpl; [|by eexists].
    destruct (String.eqb_spec (msg_senderId relayed) self) as [Heq|];
      [congruence | by eexists]. }
  assert (filteredChatHistory (setChatHistory (λ prev, prev ++ [msg]) c)
          = filteredChatHistory c ++ [msg]) as Hfiltered.
  { apply filtered_app; [done|]. rewrite Hroom, Hmroom; simpl.
    apply String.eqb_refl. }
  unfold firstUnreadIndex in *. rewrite Hfiltered.
  change (lastViewedTime (setChatHistory (λ prev, prev ++ [msg]) c))
    with (lastViewedTime c).
  unfold firstUnreadIndexOf in *.
  destruct (Z.ltb_spec 0 (lastViewedTime c)) as [Hpos|Hzero].
  - assert (isFirstUnread (lastViewedTime c) msg = (lastViewedTime c <? now_ts)) as Hq.
    { unfold isFirstUnread. rewrite Htime, Hsender; simpl. apply andb_true_r. }
    rewrite findIndex_app_last, Hq. split_and!.
    + intros Hne.
      destruct (Z.eqb_spec (findIndex (isFirstUnread (lastViewedTime c))
                              (filteredChatHistory c)) (-1)); [lia | done].
    + intros -> [_ Hlt]. simpl. by destruct (Z.ltb_spec (lastViewedTime c) now_ts); [|lia].
    + intros -> Hge. simpl. by destruct (Z.ltb_spec (lastViewedTime c) now_ts); [lia|].
  - split_and!; [done | lia | done].
Qed.

(** X15: sending never moves the unread boundary: whatever the write
    answers, the own message, optimistic or stored, is not counted as
    unread. *)
Theorem handleSend_keeps_boundary
    (c : State) (now_id now_ts : Z) (result : InsertResult) (p : Pending) (c1 : State) :
  submit now_id now_ts c = Some (p, c1) →
  Forall (λ msg, id msg ≠ tempId p) (chatHistory c) →
  firstUnreadIndex c1 = firstUnreadIndex c ∧
  firstUnreadIndex (handleSend now_id now_ts result c) = firstUnreadIndex c.
Proof.
  intros Hsubmit Hfresh. unfold handleSend. rewrite Hsubmit.
  apply submit_inv in Hsubmit as (sent & Hsent & Hroom & _ & _ & _ & _ & ->).
  assert (∀ msg, sender msg = me → roomId msg = pendingRoomId p →
            firstUnreadIndexOf (lastViewedTime c) (filteredChatHistory c ++ [msg])
            = firstUnreadIndexOf (lastViewedTime c) (filteredChatHistory c)) as Hown.
  { intros msg Hme _. unfold firstUnreadIndexOf.
    destruct (0 <? lastViewedTime c); [|done].
    assert (isFirstUnread (lastViewedTime c) msg = false) as Hq.
    { unfold isFirstUnread. rewrite Hme.
      destruct (messageTime msg); simpl; by rewrite ?andb_false_r. }
    rewrite findIndex_app_last, Hq.
    destruct (Z.eqb_spec (findIndex (isFirstUnread (lastViewedTime c))
                            (filteredChatHistory c)) (-1)); [lia | done]. }
  assert (∀ msg, roomId msg = pendingRoomId p →
            List.filter (λ m, same (roomId m) (currentRoomId c)) (chatHistory c ++ [msg])
            = filteredChatHistory c ++ [msg]) as Hshow.
  { intros msg Hmroom. unfold filteredChatHistory. rewrite List.filter_app.
    f_equal. simpl. rewrite Hroom. simpl. by rewrite Hmroom, String.eqb_refl. }
  split.
  - unfold firstUnreadIndex, filteredChatHistory at 1. simpl.
    rewrite Hshow by done. by apply Hown.
  - unfold firstUnreadIndex, filteredChatHistory at 1, settle, revert.
    destruct result as [|[ins|]|]; simpl; rewrite ?Hsent; simpl.
    + rewrite List.filter_app, filter_temp_fresh by done. simpl.
      by rewrite String.eqb_refl, app_nil_r.
    + rewrite fmap_app, confirm_fresh by done.
      change (confirmMessage (tempId p) ins <$> [newMessage now_ts p])
        with [confirmMessage (tempId p) ins (newMessage now_ts p)].
      assert (sender (confirmMessage (tempId p) ins (newMessage now_ts p)) = me
              ∧ roomId (confirmMessage (tempId p) ins (newMessage now_ts p))
                = pendingRoomId p) as [Hme Hr].
      { unfold confirmMessage; simpl. by rewrite String.eqb_refl. }
      rewrite Hshow by done. by apply Hown.
    + rewrite Hshow by done. by apply Hown.
    + rewrite List.filter_app, filter_temp_fresh by done. simpl.
      by rewrite String.eqb_refl, app_nil_r.
Qed.

End BoundaryFacts.

Section BoundaryWitnesses.
Import Client Page.

Lemma sender_tags_kept_witness :
  (∀ now_id now_ts result,
      Forall (sender_agrees "b")
        (chatHistory (handleSend (parser := Sample.dates) now_id now_ts result
                        Sample.page))) ∧
  (∀ now_id now_ts relayed,
      Forall (sender_agrees "b")
        (chatHistory (receiveMessageHandler now_id now_ts relayed Sample.page))) ∧
  (∀ result,
      Forall (sender_agrees "b")
        (chatHistory (fetchHistory (parser := Sample.dates) result Sample.page))).
Proof.
  apply (sender_tags_kept (parser := Sample.dates) Sample.page "b");
    [reflexivity | reflexivity |].
  repeat constructor; discriminate.
Defined.

Lemma onFocus_clears_boundary_witness :
  firstUnreadIndex (parser := Sample.dates) (onFocus 20 Sample.unread_page) = -1.
Proof.
  apply (onFocus_clears_boundary (parser := Sample.dates) Sample.unread_page 20).
  intros msg t Hin. vm_compute in Hin.
  repeat (apply elem_of_cons in Hin as [->|Hin]; [intros [= <-]; lia|]).
  by apply elem_of_nil in Hin.
Defined.

Lemma arrival_sets_boundary_witness :
  (firstUnreadIndex (parser := Sample.dates) Sample.viewed_page ≠ -1 →
   firstUnreadIndex (parser := Sample.dates)
     (receiveMessageHandler 30 30 Sample.arrival Sample.viewed_page)
   = firstUnreadIndex (parser := Sample.dates) Sample.viewed_page) ∧
  (firstUnreadIndex (parser := Sample.dates) Sample.viewed_page = -1 →
   0 < lastViewedTime Sample.viewed_page < 30 →
   firstUnreadIndex (parser := Sample.dates)
     (receiveMessageHandler 30 30 Sample.arrival Sample.viewed_page)
   = Z.of_nat (length (filteredChatHistory Sample.viewed_page))) ∧
  (firstUnreadIndex (parser := Sample.dates) Sample.viewed_page = -1 →
   30 ≤ lastViewedTime Sample.viewed_page →
   firstUnreadIndex (parser := Sample.dates)
     (receiveMessageHandler 30 30 Sample.arrival Sample.viewed_page) = -1).
Proof.
  apply (arrival_sets_boundary (parser := Sample.dates) Sample.viewed_page 30 30
           Sample.arrival "a--b"); [reflexivity | reflexivity | reflexivity | discriminate].
Defined.

Example arrival_after_view :
  firstUnreadIndex (parser := Sample.dates) Sample.viewed_page = -1 ∧
  firstUnreadIndex (parser := Sample.dates)
    (receiveMessageHandler 30 30 Sample.arrival Sample.viewed_page) = 3.
Proof. done. Qed.

Lemma handleSend_keeps_boundary_witness :
  firstUnreadIndex (parser := Sample.dates) Sample.submitted
  = firstUnreadIndex (parser := Sample.dates) Sample.page ∧
  firstUnreadIndex (parser := Sample.dates)
    (handleSend (parser := Sample.dates) 7 7 (InsertData (Some Sample.stored)) Sample.page)
  = firstUnreadIndex (parser := Sample.dates) Sample.page.
Proof.
  apply (handleSend_keeps_boundary (parser := Sample.dates) Sample.page 7 7
           (InsertData (Some Sample.stored)) Sample.pending Sample.submitted);
    [reflexivity|].
  repeat constructor; discriminate.
Defined.

End BoundaryWitnesses.

(** ** Rooms on the page, and the way to the peer *)

Section RoomFacts.
Import Client Page.
Implicit Types (c : State).

Lemma createRoomId_nonempty a b : RoomIdentity.createRoomId a b ≠ "".
Proof.
  rewrite createRoomId_unfold.
  destruct (RoomIdentity.sortBefore b a); [by destruct b | by destruct a].
Qed.

Lemma targetRoomId_truthy c target : targetRoomId c = Some target → target ≠ "".
Proof.
  unfold targetRoomId.
  destruct (currentUserId c) as [uid|]; [|done].
  destruct (selectedChatId c) as [sel|]; [|done].
  destruct (_ && _); [|done]. intros [= <-]. apply createRoomId_nonempty.
Qed.

(** X16: when the selected peer changes, the page first leaves the room
    it was in (if any), then joins the room of the new peer and starts to
    load its history; once the ref has followed, running the effect again
    does nothing. *)
Theorem roomEffect_switch (c : State) (target : string) (sent : list Emit) :
  socket c = Some sent →
  isSocketConnected c = true →
  targetRoomId c = Some target →
  currentRoomIdRef c ≠ Some target →
  roomEffect true (roomEffectCleanup true c)
  = (setCurrentRoomId (Some target)
       (emit (joinRoom target) (roomEffectCleanup true c)), Some target) ∧
  socket (roomEffect true (roomEffectCleanup true c)).1
  = Some (sent ++
          (if truthy (currentRoomIdRef c)
           then [leaveRoom (default "" (currentRoomIdRef c))] else []) ++
          [joinRoom target]) ∧
  currentRoomId (roomEffect true (roomEffectCleanup true c)).1 = Some target ∧
  roomEffect true (syncRoomRef (roomEffect true (roomEffectCleanup true c)).1)
  = (syncRoomRef (roomEffect true (roomEffectCleanup true c)).1, None).
Proof.
  intros Hsocket Hconn Htarget Hother.
  pose proof (targetRoomId_truthy c target Htarget) as Hne%String.eqb_neq.
  assert (same target (currentRoomIdRef c) = false) as Hsame.
  { destruct (currentRoomIdRef c) as [r|]; simpl; [|done].
    apply String.eqb_neq. congruence. }
  assert (∃ sent',
      socket (roomEffectCleanup true c) = Some sent' ∧
      sent' = sent ++ (if truthy (currentRoomIdRef c)
                       then [leaveRoom (default "" (currentRoomIdRef c))] else []) ∧
      targetRoomId (roomEffectCleanup true c) = Some target ∧
      isSocketConnected (roomEffectCleanup true c) = true ∧
      currentRoomIdRef (roomEffectCleanup true c) = currentRoomIdRef c ∧
      currentUserId (roomEffectCleanup true c) = currentUserId c ∧
      selectedChatId (roomEffectCleanup true c) = selectedChatId c)
    as (sent' & Hsent' & -> & Htarget' & Hconn' & Href' & Huid' & Hsel').
  { unfold roomEffectCleanup. rewrite Hsocket.
    destruct (currentRoomIdRef c) as [r|] eqn:Href; simpl;
      [|exists sent; by rewrite app_nil_r].
    rewrite andb_true_r. destruct (negb (String.eqb r "")); simpl.
    - eexists. rewrite Hsocket. by split_and!.
    - exists sent. by rewrite app_nil_r. }
  assert (roomEffect true (roomEffectCleanup true c)
          = (setCurrentRoomId (Some target)
               (emit (joinRoom target) (roomEffectCleanup true c)), Some target)) as Hrun.
  { unfold roomEffect. rewrite Htarget', Hsent', Hconn', Href', Hsame. simpl.
    by rewrite Hne. }
  rewrite Hrun. simpl. rewrite Hsent'. simpl. split_and!; [done | | done |].
  - by rewrite <-app_assoc.
  - unfold roomEffect, targetRoomId in *. simpl. rewrite Huid', Hsel'.
    destruct (currentUserId c) as [uid|]; [|done].
    destruct (selectedChatId c) as [sel|]; [|done].
    destruct (_ && _); [|done]. injection Htarget as ->.
    rewrite Hsent', Hconn'. simpl. by rewrite Hne, String.eqb_refl.
Qed.

Lemma roomEffect_switch_witness :
  roomEffect true (roomEffectCleanup true Sample.switching)
  = (setCurrentRoomId (Some "b--c")
       (emit (joinRoom "b--c") (roomEffectCleanup true Sample.switching)), Some "b--c") ∧
  socket (roomEffect true (roomEffectCleanup true Sample.switching)).1
  = Some ([] ++
          (if truthy (currentRoomIdRef Sample.switching)
           then [leaveRoom (default "" (currentRoomIdRef Sample.switching))] else []) ++
          [joinRoom "b--c"]) ∧
  currentRoomId (roomEffect true (roomEffectCleanup true Sample.switching)).1
  = Some "b--c" ∧
  roomEffect true
    (syncRoomRef (roomEffect true (roomEffectCleanup true Sample.switching)).1)
  = (syncRoomRef (roomEffect true (roomEffectCleanup true Sample.switching)).1, None).
Proof.
  apply (roomEffect_switch Sample.switching "b--c" []);
    [reflexivity | reflexivity | reflexivity | discriminate].
Defined.

Example roomEffect_switch_emits :
  socket (roomEffect true (roomEffectCleanup true Sample.switching)).1
  = Some [leaveRoom "a--b"; joinRoom "b--c"].
Proof. reflexivity. Qed.

(** X17: what a page emits as [sendMessage] comes out at the peer: the
    relay hands it, unchanged, to the socket of the peer that is in the
    room and not back to the sender, and the page of the peer, with that
    room open, appends a message with that text and sender. *)
Theorem sent_message_reaches_peer
    (st : Server.State) (ref : positive) (sA sB : Server.SocketId)
    (text room uid : string) (cB : State) (now_id now_ts : Z) :
  Server.in_room sB (JS.Str room) (Server.rooms st) = true →
  sA ≠ sB →
  currentRoomIdRef cB = Some room →
  currentUserRef cB ≠ Some uid →
  ∃ ds payload relayed msg,
    Server.step st (Wire.to_relay ref sA (sendMessage text room uid))
    = JS.Returned (st, ds) ∧
    (sA ∉ Server.recipient <$> ds) ∧
    {| Server.recipient := sB; Server.event := "receiveMessage";
       Server.payload := payload |} ∈ ds ∧
    Wire.to_page payload = Some relayed ∧
    chatHistory (receiveMessageHandler now_id now_ts relayed cB)
    = chatHistory cB ++ [msg] ∧
    Client.text msg = text ∧ senderId msg = uid ∧ roomId msg = room ∧
    sender msg = other.
Proof.
  intros HB Hne Hroom Hpeer.
  set (payload := {| Server.text := JS.Str text; Server.roomId := JS.Str room;
                     Server.senderId := JS.Str uid |}).
  set (relayed := {| msg_text := text; msg_roomId := room; msg_senderId := uid |}).
  exists (Server.to_emit sA (JS.Str room) "receiveMessage" payload (Server.rooms st)).
  eexists payload, relayed, _. split_and!.
  - reflexivity.
  - rewrite recipients_to_emit. by intros [_ ?].
  - apply in_room_true in HB as (r & Hin & Hr).
    assert (sB ∈ Server.recipient <$>
              Server.to_emit sA (JS.Str room) "receiveMessage" payload (Server.rooms st))
      as (d & -> & Hd)%list_elem_of_fmap.
    { apply recipients_to_emit. split; [|congruence].
      exists r, (JS.Str room). split_and!; [done | left | done]. }
    unfold Server.to_emit in Hd. apply list_elem_of_fmap in Hd as (c & -> & Hc).
    unfold Server.to_emit. apply list_elem_of_fmap. by exists c.
  - done.
  - unfold receiveMessageHandler. rewrite Hroom; simpl. rewrite String.eqb_refl.
    assert (same uid (currentUserRef cB) = false) as ->; [|done].
    destruct (currentUserRef cB) as [self|]; simpl; [|done].
    apply String.eqb_neq. congruence.
  - done.
  - done.
  - done.
  - done.
Qed.

Lemma sent_message_reaches_peer_witness :
  ∃ ds payload relayed msg,
    Server.step (Server.joinRoom "s0" (JS.Str "a--b") Sample.relay)
      (Wire.to_relay 1 "s1" (sendMessage "hi" "a--b" "a"))
    = JS.Returned (Server.joinRoom "s0" (JS.Str "a--b") Sample.relay, ds) ∧
    ("s1" ∉ Server.recipient <$> ds) ∧
    {| Server.recipient := "s0"; Server.event := "receiveMessage";
       Server.payload := payload |} ∈ ds ∧
    Wire.to_page payload = Some relayed ∧
    chatHistory (receiveMessageHandler 7 7 relayed Sample.page)
    = chatHistory Sample.page ++ [msg] ∧
    Client.text msg = "hi" ∧ senderId msg = "a" ∧ roomId msg = "a--b" ∧
    sender msg = other.
Proof.
  apply (sent_message_reaches_peer
           (Server.joinRoom "s0" (JS.Str "a--b") Sample.relay) 1 "s1" "s0"
           "hi" "a--b" "a" Sample.page 7 7);
    [reflexivity | discriminate | reflexivity | discriminate].
Defined.

End RoomFacts.

(** ** The policies and the room identifier *)

Section PolicyFacts.
Import Policy.

Lemma string_app_cons a s t : String a s +:+ t = String a (s +:+ t).
Proof. reflexivity. Qed.

Lemma string_app_nil_r s : s +:+ "" = s.
Proof. induction s as [|a s IH]; [done|]. by rewrite string_app_cons, IH. Qed.

Lemma string_app_assoc s t u : (s +:+ t) +:+ u = s +:+ t +:+ u.
Proof. induction s as [|a s IH]; [done|]. by rewrite !string_app_cons, IH. Qed.

Lemma like_percent q s :
  like (String "%" q) s
  = like q s || match s with
                | String _ s' => like (String "%" q) s'
                | EmptyString => false
                end.
Proof. by destruct s. Qed.

Lemma like_percent_iff q s :
  like (String "%" q) s = true ↔ ∃ pre suf, s = pre +:+ suf ∧ like q suf = true.
Proof.
  induction s as [|ch s IH]; rewrite like_percent, orb_true_iff.
  - split.
    + intros [Hq|]; [|done]. by exists "", "".
    + intros ([|ch pre] & suf & Hs & Hq); [|done]. left.
      change ("" = suf) in Hs. by subst.
  - rewrite IH. split.
    + intros [Hq|(pre & suf & -> & Hq)].
      * by exists "", (String ch s).
      * by exists (String ch pre), suf.
    + intros ([|ch' pre] & suf & Hs & Hq).
      * left. change (String ch s = suf) in Hs. by subst.
      * right. change (String ch s = String ch' (pre +:+ suf)) in Hs.
        injection Hs as -> ->. by exists pre, suf.
Qed.

Lemma like_all s : like "%" s = true.
Proof. apply like_percent_iff. exists s, "". by rewrite string_app_nil_r. Qed.

Lemma like_plain_prefix u s :
  plain u = true → like (u +:+ "%") s = true ↔ ∃ post, s = u +:+ post.
Proof.
  unfold plain. revert s. induction u as [|c u IH]; intros s Hu.
  - simpl. split; [by exists s | intros _; apply like_all].
  - simpl in Hu. apply andb_prop in Hu as [Hc Hu].
    apply negb_true_iff, orb_false_elim in Hc as [[H1 H2]%orb_false_elim H3].
    change (String c u +:+ "%") with (String c (u +:+ "%")).
    cbn [like]. rewrite H1, H2, H3.
    destruct s as [|ch s]; [split; [done | by intros [? ?]]|].
    rewrite andb_true_iff, Ascii.eqb_eq, (IH s Hu). split.
    + intros [-> [post ->]]. by exists post.
    + intros [post [= -> ->]]. split; [done | by exists post].
Qed.

Lemma in_room_id_iff uid room_id :
  plain uid = true →
  in_room_id uid room_id = true ↔ ∃ pre post, room_id = pre +:+ uid +:+ post.
Proof.
  intros Hu. unfold in_room_id.
  change ("%" +:+ uid +:+ "%") with (String "%" (uid +:+ "%")).
  rewrite like_percent_iff. split.
  - intros (pre & suf & -> & [post ->]%like_plain_prefix); [|done].
    by exists pre, post.
  - intros (pre & post & ->). exists pre, (uid +:+ post). split; [done|].
    apply like_plain_prefix; [done | by exists post].
Qed.

(** X18: for identifiers that hold no [LIKE] metacharacter, a user passes
    the policies of a room exactly when the identifier occurs in the room
    identifier; so both users of a pair may read the room that
    [createRoomId] derives for them, and each may insert its own
    messages. *)
Theorem policies_admit_participants (uid peer : string) :
  plain uid = true →
  (∀ room_id,
      select_using uid room_id = true ↔ ∃ pre post, room_id = pre +:+ uid +:+ post) ∧
  select_using uid (RoomIdentity.createRoomId uid peer) = true ∧
  select_using uid (RoomIdentity.createRoomId peer uid) = true ∧
  insert_check uid (RoomIdentity.createRoomId uid peer) uid = true ∧
  (∀ sender_id, sender_id ≠ uid →
      insert_check uid (RoomIdentity.createRoomId uid peer) sender_id = false).
Proof.
  intros Hu.
  assert (∀ other, select_using uid (RoomIdentity.createRoomId uid other) = true
                   ∧ select_using uid (RoomIdentity.createRoomId other uid) = true)
    as Hboth.
  { intros other. unfold select_using. rewrite !in_room_id_iff by done.
    rewrite !createRoomId_unfold. split.
    - destruct (RoomIdentity.sortBefore other uid).
      + exists (other +:+ "--"), "". by rewrite string_app_nil_r, string_app_assoc.
      + by exists "", ("--" +:+ other).
    - destruct (RoomIdentity.sortBefore uid other).
      + by exists "", ("--" +:+ other).
      + exists (other +:+ "--"), "". by rewrite string_app_nil_r, string_app_assoc. }
  split_and!.
  - intros room_id. by apply in_room_id_iff.
  - apply Hboth.
  - apply Hboth.
  - unfold insert_check. rewrite String.eqb_refl. apply Hboth.
  - intros sender_id Hne. unfold insert_check.
    assert (String.eqb uid sender_id = false) as ->; [|done].
    apply String.eqb_neq. congruence.
Qed.

Lemma policies_admit_participants_witness :
  (∀ room_id,
      select_using "ann" room_id = true ↔ ∃ pre post, room_id = pre +:+ "ann" +:+ post) ∧
  select_using "ann" (RoomIdentity.createRoomId "ann" "bob") = true ∧
  select_using "ann" (RoomIdentity.createRoomId "bob" "ann") = true ∧
  insert_check "ann" (RoomIdentity.createRoomId "ann" "bob") "ann" = true ∧
  (∀ sender_id, sender_id ≠ "ann" →
      insert_check "ann" (RoomIdentity.createRoomId "ann" "bob") sender_id = false).
Proof. apply (policies_admit_participants "ann" "bob"). reflexivity. Defined.

(** A user whose identifier occurs in the identifier of another passes
    the policy of rooms it is no party to. *)
Example policy_admits_substring :
  select_using "ann" (RoomIdentity.createRoomId "anna" "bob") = true.
Proof. reflexivity. Qed.

End PolicyFacts.

(** ** Compatibility, middleware and the matches route *)

Section CompatibilityFacts.
Import Compatibility.

(** X19: the compatibility score does not depend on which of the two
    profiles comes first. *)
Theorem calculateCompatibility_sym (profile1 profile2 : StudentProfile) :
  calculateCompatibility profile1 profile2 = calculateCompatibility profile2 profile1.
Proof.
  unfold calculateCompatibility.
  rewrite (andb_comm (Client.truthy (field_of_study profile1))).
  rewrite (String.eqb_sym (default "" (field_of_study profile1))).
  rewrite (andb_comm (truthy_year (year_of_study profile1))).
  replace (Z.abs (default 0 (year_of_study profile1)
                  - default 0 (year_of_study profile2)))
    with (Z.abs (default 0 (year_of_study profile2)
                 - default 0 (year_of_study profile1))) by lia.
  done.
Qed.

(** X20: the score is one of 0, 1, 3, 5, 6 and 8; it is 8 exactly for the
    same non-empty field and the same non-zero year; a field that is
    missing or empty on a side takes the 5 points away, a year that is
    missing or 0 on a side the 3 points and the 1 point. *)
Theorem calculateCompatibility_values (profile1 profile2 : StudentProfile) :
  calculateCompatibility profile1 profile2 ∈ [0; 1; 3; 5; 6; 8] ∧
  (calculateCompatibility profile1 profile2 = 8 ↔
   ∃ f y, f ≠ "" ∧ y ≠ 0 ∧
          field_of_study profile1 = Some f ∧ field_of_study profile2 = Some f ∧
          year_of_study profile1 = Some y ∧ year_of_study profile2 = Some y) ∧
  (Client.truthy (field_of_study profile1) = false ∨
   Client.truthy (field_of_study profile2) = false →
   calculateCompatibility profile1 profile2 ≤ 3) ∧
  (truthy_year (year_of_study profile1) = false ∨
   truthy_year (year_of_study profile2) = false →
   calculateCompatibility profile1 profile2 ∈ [0; 5]).
Proof.
  unfold calculateCompatibility, Client.truthy, truthy_year.
  destruct (field_of_study profile1) as [f1|], (field_of_study profile2) as [f2|],
    (year_of_study profile1) as [y1|], (year_of_study profile2) as [y2|]; simpl;
    repeat match goal with
      | |- context [String.eqb ?a ?b] => destruct (String.eqb_spec a b)
      | |- context [Z.eqb ?a ?b] => destruct (Z.eqb_spec a b)
      end; simpl;
    (split_and!;
     [ by repeat first [apply list_elem_of_here | apply list_elem_of_further]
     | split; [try lia; intros _; eexists _, _; split_and!; try done;
               try (f_equal; lia); congruence
              | intros (f & y & ? & ? & ? & ? & ? & ?); simplify_eq; try lia; congruence]
     | intros [?|?]; try done; try lia
     | intros [?|?]; try done;
       by repeat first [apply list_elem_of_here | apply list_elem_of_further] ]).
Qed.

End CompatibilityFacts.

Section MiddlewareFacts.
Import Middleware.

(** X21: the middleware never redirects twice in a row: the page it
    redirects to is let through for the same session; without a session
    no path under a protected route is let through, and with a session
    neither the sign-in nor the sign-up page is. *)
Theorem middleware_settles (session : bool) (pathname : string) :
  (∀ target from,
      middleware session pathname = Redirect target from →
      middleware session target = Next) ∧
  (middleware false pathname = Next →
   ∀ route, route ∈ protectedRoutes → String.prefix route pathname = false) ∧
  (middleware true pathname = Next → pathname ≠ "/signin" ∧ pathname ≠ "/signup").
Proof.
  unfold middleware, protectedRoutes. split_and!.
  - intros target from. destruct session; simpl.
    + destruct (_ || _); [|done]. by intros [= <- _].
    + rewrite orb_false_r. destruct (String.prefix _ _); [|done]. by intros [= <- _].
  - simpl. rewrite orb_false_r.
    destruct (String.prefix "/dashboard" pathname) eqn:E; [done|].
    intros _ route ->%list_elem_of_singleton. done.
  - simpl. destruct (String.eqb_spec pathname "/signin"); [done|].
    by destruct (String.eqb_spec pathname "/signup").
Qed.

Example middleware_dashboard :
  middleware false "/dashboard/chat" = Redirect "/signin" (Some "/dashboard/chat") ∧
  middleware true "/dashboard/chat" = Next ∧
  middleware true "/signup" = Redirect "/dashboard" None.
Proof. done. Qed.

End MiddlewareFacts.

Section MatchesRouteFacts.
Import MatchesRoute.

(** X22: the identifiers whose profiles the route asks for are users of
    the fetched match rows, never the current user and never null. *)
Theorem matchedUserIds_others (currentUserId : string) (matchesResult : list MatchRow)
    (id : option string) :
  id ∈ matchedUserIds currentUserId matchesResult →
  ∃ other m,
    id = Some other ∧ other ≠ currentUserId ∧ m ∈ matchesResult ∧
    (student1_user_id m = Some other ∨
     (student1_user_id m = Some currentUserId ∧ student2_user_id m = Some other)).
Proof.
  unfold matchedUserIds.
  intros [Hin [Hself Hnull]%andb_prop]%list_elem_of_In%filter_In.
  apply list_elem_of_In, list_elem_of_fmap in Hin as (m & -> & Hm).
  unfold is_user in *.
  destruct (student1_user_id m) as [s1|] eqn:H1; [|done].
  destruct (String.eqb_spec s1 currentUserId) as [->|Hne].
  - destruct (student2_user_id m) as [s2|] eqn:H2; [|done].
    apply negb_true_iff, String.eqb_neq in Hself.
    exists s2, m. split_and!; [done..|by right].
  - exists s1, m. split_and!; [done..|by left].
Qed.

Lemma matchedUserIds_others_witness :
  ∃ other m,
    Some "bob" = Some other ∧ other ≠ "ann" ∧
    m ∈ [ {| student1_user_id := Some "ann"; student2_user_id := Some "bob" |};
          {| student1_user_id := Some "ann"; student2_user_id := Some "ann" |} ] ∧
    (student1_user_id m = Some other ∨
     (student1_user_id m = Some "ann" ∧ student2_user_id m = Some other)).
Proof.
  apply (matchedUserIds_others "ann"
           [ {| student1_user_id := Some "ann"; student2_user_id := Some "bob" |};
             {| student1_user_id := Some "ann"; student2_user_id := Some "ann" |} ]
           (Some "bob")).
  vm_compute. left.
Defined.

Lemma formatProfile_named profile : match_name (formatProfile profile) ≠ "".
Proof.
  unfold formatProfile, Client.truthy; simpl.
  destruct (name profile) as [n|]; simpl; [|done].
  by destruct (String.eqb_spec n "").
Qed.

(** X23: the route answers 401 exactly without a session; 500, with the
    message of the error as details, exactly on an error of the session,
    of the query for the matches, or of the query for the profiles of a
    non-empty list of other users; and 200 otherwise: with the empty list
    when there are no match rows or no other user in them, else with one
    named entry per profile found. It does not ask for profiles when
    there is no other user to ask for. *)
Theorem GET_answers (session : Session) (matches : Result (list MatchRow))
    (profiles : list (option string) → Result (list ProfileRow)) :
  (status (GET session matches profiles) = 401 ↔ session = NoSession) ∧
  (session = NoSession →
   GET session matches profiles = {| status := 401; body := Unauthorized |}) ∧
  (status (GET session matches profiles) = 500 ↔
   (∃ e, session = SessionError e) ∨
   (∃ uid e, session = SessionOf uid ∧ matches = QueryError e) ∨
   (∃ uid rows e,
       session = SessionOf uid ∧ matches = QueryData (Some rows) ∧
       matchedUserIds uid rows ≠ [] ∧
       profiles (matchedUserIds uid rows) = QueryError e)) ∧
  (∀ e, session = SessionError e →
        GET session matches profiles
        = {| status := 500; body := Failed ("Authentication error: " +:+ e) |}) ∧
  (∀ uid e, session = SessionOf uid → matches = QueryError e →
        GET session matches profiles
        = {| status := 500;
             body := Failed ("Database error fetching matches: " +:+ e) |}) ∧
  (∀ uid rows e,
        session = SessionOf uid → matches = QueryData (Some rows) →
        matchedUserIds uid rows ≠ [] →
        profiles (matchedUserIds uid rows) = QueryError e →
        GET session matches profiles
        = {| status := 500;
             body := Failed ("Database error fetching profiles: " +:+ e) |}) ∧
  (∀ uid, session = SessionOf uid →
        matches = QueryData None ∨
        (∃ rows, matches = QueryData (Some rows) ∧ matchedUserIds uid rows = []) →
        GET session matches profiles = {| status := 200; body := Matches [] |}) ∧
  (∀ uid rows found,
        session = SessionOf uid → matches = QueryData (Some rows) →
        matchedUserIds uid rows ≠ [] →
        profiles (matchedUserIds uid rows) = QueryData found →
        GET session matches profiles
        = {| status := 200;
             body := Matches (formatProfile <$> default [] found) |}) ∧
  (status (GET session matches profiles) = 500 →
   ∃ details, body (GET session matches profiles) = Failed details ∧ details ≠ "") ∧
  (status (GET session matches profiles) ∈ [200; 401; 500]) ∧
  (status (GET session matches profiles) = 200 →
   ∃ ms, body (GET session matches profiles) = Matches ms ∧
         ∀ m, m ∈ ms → match_name m ≠ "") ∧
  GET session matches profiles
  = GET session matches
      (λ ids, match ids with [] => QueryError "" | _ => profiles ids end).
Proof.
  assert (∀ m, ∃ details, body (failure m) = Failed details ∧ details ≠ "") as Hfail.
  { intros m. eexists. split; [done|]. unfold details_of.
    by destruct (String.eqb_spec m ""). }
  assert (∀ rows : list ProfileRow, ∀ m, m ∈ formatProfile <$> rows → match_name m ≠ "")
    as Hnamed.
  { intros rows m (row & -> & _)%list_elem_of_fmap. apply formatProfile_named. }
  assert (∀ uid (rows : list MatchRow),
            (length rows =? 0)%nat = true → matchedUserIds uid rows = []) as Hnone.
  { intros uid [|row rows]; [done | discriminate]. }
  assert (∀ uid (rows : list MatchRow),
            matchedUserIds uid rows ≠ [] → (length rows =? 0)%nat = false) as Hsome.
  { intros uid [|row rows] Hne; [done | done]. }
  assert (∀ {A} (l : list A), l ≠ [] → (length l =? 0)%nat = false) as Hlen.
  { intros A [|x l] Hne; [done | done]. }
  split_and!.
  - unfold GET, failure. repeat case_match; simpl; split; done.
  - by intros ->.
  - split.
    + unfold GET, failure. destruct session as [e| |uid]; simpl; [intros _; left; by exists e | done |].
      destruct matches as [e|[rows|]]; simpl; [intros _; right; left; by exists uid, e | | done].
      destruct (length rows =? 0)%nat eqn:Hrows; [done|].
      destruct (length (matchedUserIds uid rows) =? 0)%nat eqn:Hids; [done|].
      destruct (profiles (matchedUserIds uid rows)) as [e|found] eqn:Hfound; [|done].
      intros _. right. right. exists uid, rows, e. split_and!; try done.
      intros E. by rewrite E in Hids.
    + intros [[e ->]|[(uid & e & -> & ->)|(uid & rows & e & -> & -> & Hne & He)]]; simpl; try done.
      by rewrite (Hsome _ _ Hne), (Hlen _ _ Hne), He.
  - by intros e ->.
  - by intros uid e -> ->.
  - intros uid rows e -> -> Hne He. simpl.
    by rewrite (Hsome _ _ Hne), (Hlen _ _ Hne), He.
  - intros uid -> [->|(rows & -> & Hids)]; simpl; [done|].
    destruct (length rows =? 0)%nat; [done|]. by rewrite Hids.
  - intros uid rows found -> -> Hne He. simpl.
    by rewrite (Hsome _ _ Hne), (Hlen _ _ Hne), He.
  - unfold GET. repeat case_match; simpl; try done; intros _; apply Hfail.
  - unfold GET, failure. repeat case_match; simpl;
      by repeat first [apply list_elem_of_here | apply list_elem_of_further].
  - unfold GET, failure. repeat case_match; simpl; try done; intros _;
      first [ by (exists []; split; [done | intros m ?%elem_of_nil])
            | eexists; split; [done|]; apply Hnamed ].
  - unfold GET. repeat case_match; simplify_eq; done.
Qed.

End MatchesRouteFacts.
